(** * process_documents.py: invoice renaming pipeline

    A shallow embedding of [InvoiceProcessor] and [main] from
    [src/process_documents.py], and the properties of its filename
    derivation, its rename guard and its batch loop.

    Conventions.
    - A Python [str] is a [string]; a character [c] stands for the code
      point [nat_of_ascii c], so the strings covered are those over the
      code points below 256.  Among these the decimal digits of [re] and
      of [int] are the ten ASCII digits; from code point 256 on the
      library knows further decimal digits, which lie outside the texts
      covered.
    - A [pathlib] path is the list of its [parts].  The file system holds
      each path as it is written: the paths meant have no component [.]
      or [..], and there are no links.
    - Effectful methods are state transformers over a [world] (file
      system and log output) that return a [result]: a value or a raised
      exception. *)

From Stdlib Require Import String Ascii List Arith Bool Lia ZArith Zify ZifyNat.
From stdpp Require Import base option gmap strings list.

Local Open Scope string_scope.
Local Open Scope list_scope.

(** ** Characters and the [re] character classes used by the source *)

Module Re.

(** Code point of a character. *)
Definition ord (c : ascii) : nat := nat_of_ascii c.

(** [\d] on [str]: the decimal digits (below code point 256: ASCII 0-9). *)
Definition is_digit (c : ascii) : bool :=
  ((48 <=? ord c) && (ord c <=? 57))%nat.

(** [\s] on [str]: Unicode white space; below code point 256 these are
    TAB LF VT FF CR, FS GS RS US, SPACE, NEL and NBSP. *)
Definition is_space (c : ascii) : bool :=
  (((9 <=? ord c) && (ord c <=? 13))
   || ((28 <=? ord c) && (ord c <=? 32))
   || (ord c =? 133) || (ord c =? 160))%nat.

(** The class of invalid filename characters in [sanitize_filename]:
    less-than, greater-than, colon, double quote (code point 34), slash,
    backslash, vertical bar, question mark and asterisk. *)
Definition is_invalid (c : ascii) : bool :=
  existsb (Ascii.eqb c)
    ["<"; ">"; ":"; ascii_of_nat 34; "/"; "\"; "|"; "?"; "*"]%char.

(** [re.sub(cls, '', s)] for a one-character class [cls]: every match is
    deleted. *)
Fixpoint sub_empty (cls : ascii -> bool) (s : string) : string :=
  match s with
  | EmptyString => EmptyString
  | String c r => if cls c then sub_empty cls r else String c (sub_empty cls r)
  end.

(** [re.sub(cls+, rep, s)]: every maximal run of [cls] characters is
    replaced by one [rep].  [inrun] tells that the previous character
    belonged to a run that has already been replaced. *)
Fixpoint sub_runs (cls : ascii -> bool) (rep : ascii) (inrun : bool)
    (s : string) : string :=
  match s with
  | EmptyString => EmptyString
  | String c r =>
      if cls c then
        if inrun then sub_runs cls rep true r
        else String rep (sub_runs cls rep true r)
      else String c (sub_runs cls rep false r)
  end.

End Re.

(** ** [str] methods *)

Module Str.

(** [s.lstrip(chars)] *)
Fixpoint lstrip (chars : ascii -> bool) (s : string) : string :=
  match s with
  | EmptyString => EmptyString
  | String c r => if chars c then lstrip chars r else s
  end.

(** [s.rstrip(chars)] *)
Fixpoint rstrip (chars : ascii -> bool) (s : string) : string :=
  match s with
  | EmptyString => EmptyString
  | String c r =>
      match rstrip chars r with
      | EmptyString => if chars c then EmptyString else String c EmptyString
      | r' => String c r'
      end
  end.

(** [s.strip(chars)] *)
Definition strip (chars : ascii -> bool) (s : string) : string :=
  lstrip chars (rstrip chars s).

(** First and last character, when there is one. *)
Definition head (s : string) : option ascii :=
  match s with EmptyString => None | String c _ => Some c end.

Fixpoint last (s : string) : option ascii :=
  match s with
  | EmptyString => None
  | String c EmptyString => Some c
  | String _ r => last r
  end.

(** The characters of a string. *)
Definition occurs (c : ascii) (s : string) : Prop :=
  In c (list_ascii_of_string s).

(** Two adjacent characters of [s] both satisfy [cls]. *)
Fixpoint has_run (cls : ascii -> bool) (s : string) : bool :=
  match s with
  | String c ((String d _) as r) => (cls c && cls d) || has_run cls r
  | _ => false
  end.

(** [c.lower()] below code point 256: the capital letters A to Z, and
    those from 192 to 222 but for the multiplication sign, are 32 below
    their small letters.  [s.lower()]. *)
Definition lower_char (c : ascii) : ascii :=
  if (((65 <=? Re.ord c) && (Re.ord c <=? 90))
      || ((192 <=? Re.ord c) && (Re.ord c <=? 222) && negb (Re.ord c =? 215)))%nat
  then ascii_of_nat (Re.ord c + 32) else c.

Fixpoint lower (s : string) : string :=
  match s with
  | EmptyString => EmptyString
  | String c r => String (lower_char c) (lower r)
  end.

(** [s.rfind('.')], as the suffix of [s] starting at the last dot. *)
Fixpoint from_last_dot (s : string) : option string :=
  match s with
  | EmptyString => None
  | String c r =>
      match from_last_dot r with
      | Some t => Some t
      | None => if Ascii.eqb c "." then Some s else None
      end
  end.

End Str.

(** ** [InvoiceProcessor.sanitize_filename]

    The method does not use [self] and has no effect: a function on
    strings. *)

(** The argument of [strip(' .')]. *)
Definition space_or_dot (c : ascii) : bool :=
  Ascii.eqb c " " || Ascii.eqb c ".".

Definition sanitize_filename (text : string) : string :=
  (* Remove invalid filename characters *)
  let sanitized := Re.sub_empty Re.is_invalid text in
  (* Replace whitespace with underscores *)
  let sanitized := Re.sub_runs Re.is_space "_" false sanitized in
  (* Remove leading/trailing whitespace and dots *)
  Str.strip space_or_dot sanitized.

(** ** [datetime.strptime] and [strftime] for the format [%d-%m-%Y] *)

Module Datetime.

Definition digit_val (c : ascii) : nat := Re.ord c - 48.
Definition digit_char (n : nat) : ascii := ascii_of_nat (48 + n).

(** [int(s)] on a matched group: white space around the digits is
    skipped (the day group may start with a space), the digits are read
    in base ten. *)
Fixpoint int_digits (acc : nat) (s : string) : nat :=
  match s with
  | EmptyString => acc
  | String c r => int_digits (10 * acc + digit_val c) r
  end.

Definition int (s : string) : nat := int_digits 0 (Str.lstrip Re.is_space s).

(** Regular expressions as [_strptime.TimeRE] builds them: a pattern is
    a sequence of literal characters and of capturing groups, a group is
    an ordered choice between sequences of one-character classes. *)
Definition lit (a : ascii) : ascii -> bool := Ascii.eqb a.

Definition range (lo hi : ascii) (c : ascii) : bool :=
  ((Re.ord lo <=? Re.ord c) && (Re.ord c <=? Re.ord hi))%nat.

Inductive item :=
  | Group (alts : list (list (ascii -> bool)))
  | Literal (c : ascii).

(** ['d': 3[0-1]|[1-2]\d|0[1-9]|[1-9]| [1-9]] *)
Definition re_d : list (list (ascii -> bool)) :=
  [ [lit "3"; range "0" "1"];
    [range "1" "2"; Re.is_digit];
    [lit "0"; range "1" "9"];
    [range "1" "9"];
    [lit " "; range "1" "9"] ]%char.

(** ['m': 1[0-2]|0[1-9]|[1-9]] *)
Definition re_m : list (list (ascii -> bool)) :=
  [ [lit "1"; range "0" "2"];
    [lit "0"; range "1" "9"];
    [range "1" "9"] ]%char.

(** ['Y': \d\d\d\d] *)
Definition re_Y : list (list (ascii -> bool)) :=
  [ [Re.is_digit; Re.is_digit; Re.is_digit; Re.is_digit] ].

(** The compiled format [%d-%m-%Y]. *)
Definition format_regex : list item :=
  [Group re_d; Literal "-"; Group re_m; Literal "-"; Group re_Y]%char.

(** One alternative against a prefix of [s]: the text matched and the
    rest. *)
Fixpoint match_classes (cs : list (ascii -> bool)) (s : string)
    : option (string * string) :=
  match cs with
  | [] => Some (EmptyString, s)
  | cl :: cs' =>
      match s with
      | EmptyString => None
      | String c r =>
          if cl c then
            match match_classes cs' r with
            | Some (m, rest) => Some (String c m, rest)
            | None => None
            end
          else None
      end
  end.

(** Ordered choice with backtracking: the first alternative after which
    the remainder [k] of the pattern matches. *)
Fixpoint match_alts {A} (alts : list (list (ascii -> bool)))
    (k : string -> string -> option A) (s : string) : option A :=
  match alts with
  | [] => None
  | alt :: alts' =>
      match match_classes alt s with
      | Some (m, rest) =>
          match k m rest with
          | Some r => Some r
          | None => match_alts alts' k s
          end
      | None => match_alts alts' k s
      end
  end.

(** [regex.match(s)]: the captured groups and the unmatched rest. *)
Fixpoint re_match (p : list item) (s : string)
    : option (list string * string) :=
  match p with
  | [] => Some ([], s)
  | Literal a :: p' =>
      match s with
      | String c r => if Ascii.eqb a c then re_match p' r else None
      | EmptyString => None
      end
  | Group alts :: p' =>
      match_alts alts
        (fun m rest =>
           match re_match p' rest with
           | Some (gs, e) => Some (m :: gs, e)
           | None => None
           end) s
  end.

(** [datetime._is_leap], [datetime._days_in_month] and the range checks
    of [datetime.date(year, month, day)] ([MINYEAR = 1]). *)
Definition is_leap (year : nat) : bool :=
  ((year mod 4 =? 0) && (negb (year mod 100 =? 0) || (year mod 400 =? 0)))%nat.

Definition days_in_month (year month : nat) : nat :=
  if ((month =? 2) && is_leap year)%nat then 29
  else nth month [0; 31; 28; 31; 30; 31; 30; 31; 31; 30; 31; 30; 31] 0.

Definition MAXYEAR : nat := 99 * 100 + 99.

Definition check_date_fields (year month day : nat) : bool :=
  ((1 <=? year) && (year <=? MAXYEAR) && (1 <=? month) && (month <=? 12)
   && (1 <=? day) && (day <=? days_in_month year month))%nat.

(** [datetime.strptime(data_string, "%d-%m-%Y")]: the date as
    (year, month, day), or [None] where Python raises [ValueError]. *)
Definition strptime (data_string : string) : option (nat * nat * nat) :=
  match re_match format_regex data_string with
  | None => None                      (* does not match format *)
  | Some (found, rest) =>
      match rest with
      | String _ _ => None            (* unconverted data remains *)
      | EmptyString =>
          match found with
          | [d; m; Y] =>
              let year := int Y in
              let month := int m in
              let day := int d in
              if check_date_fields year month day
              then Some (year, month, day) else None
          | _ => None
          end
      end
  end.

(** Zero-padded decimals of width two and four. *)
Definition pad2 (n : nat) : string :=
  String (digit_char (n / 10 mod 10)) (String (digit_char (n mod 10)) EmptyString).

Definition pad4 (n : nat) : string :=
  String (digit_char (n / 1000 mod 10)) (String (digit_char (n / 100 mod 10)) (pad2 n)).

(** [%Y] of [strftime] is the C library's: four digits with leading
    zeros on some platforms, the plain decimal on others (glibc).  For a
    year from 1 to 9999 the plain decimal is the four digits without
    their leading zeros. *)
Definition format_Y (zero_pad : bool) (year : nat) : string :=
  if zero_pad then pad4 year else Str.lstrip (lit "0") (pad4 year).

(** [date_obj.strftime("%Y%m%d")] *)
Definition strftime (zero_pad : bool) (date_obj : nat * nat * nat) : string :=
  let '(year, month, day) := date_obj in
  format_Y zero_pad year ++ pad2 month ++ pad2 day.

End Datetime.

(** ** [pathlib] paths *)

Module Path.

(** A path is the tuple of its [parts]; an absolute path starts with the
    part ["/"]. *)
Definition path := list string.

(** The pieces of [s] between slashes. *)
Fixpoint split_slash (s : string) : list string :=
  match s with
  | EmptyString => [EmptyString]
  | String c r =>
      if Ascii.eqb c "/" then EmptyString :: split_slash r
      else match split_slash r with
           | h :: t => String c h :: t
           | [] => [String c EmptyString]
           end
  end.

(** The parts a [str] contributes to a path: empty pieces and single
    dots are dropped. *)
Definition parts_of (s : string) : list string :=
  filter (fun x => x ≠ EmptyString ∧ x ≠ ".") (split_slash s).

(** [p / s]: an absolute [s] replaces [p]. *)
Definition truediv (p : path) (s : string) : path :=
  match s with
  | String "/" _ => "/" :: parts_of s
  | _ => p ++ parts_of s
  end.

(** [p.parent]: the root and the empty path are their own parents. *)
Definition parent (p : path) : path :=
  match p with
  | ["/"] => p
  | _ => removelast p
  end.

(** [p.name]: the final part, empty for the root and the empty path. *)
Definition name (p : path) : string :=
  match p with
  | ["/"] => EmptyString
  | _ => List.last p EmptyString
  end.

(** [p.suffix]: with [i = name.rfind('.')], [name[i:]] when
    [0 < i < len(name) - 1], otherwise empty. *)
Definition suffix (p : path) : string :=
  match Str.from_last_dot (name p) with
  | Some t =>
      if bool_decide (t ≠ name p ∧ t ≠ ".") then t else EmptyString
  | None => EmptyString
  end.

End Path.

Abbreviation path := Path.path.

(** ** Exceptions and results *)

(** The exceptions the program can meet.  All but [KeyboardInterrupt]
    derive from [Exception]; [PermissionError], [FileNotFoundError],
    [NotADirectoryError] and [IsADirectoryError] are [OSError]s. *)
Inductive exn :=
  | KeyboardInterrupt
  | PermissionError
  | FileNotFoundError
  | NotADirectoryError
  | IsADirectoryError
  | OSError
  | JSONDecodeError
  | ValidationError
  | APIError.

Global Instance exn_eq_dec : EqDecision exn.
Proof. solve_decision. Defined.

(** [isinstance(e, Exception)] *)
Definition is_Exception (e : exn) : bool :=
  match e with KeyboardInterrupt => false | _ => true end.

Inductive result (A : Type) :=
  | Ret (a : A)
  | Raise (e : exn).
Arguments Ret {A} a.
Arguments Raise {A} e.

(** ** The world: file system and log *)

(** What the file system holds at a path: a regular file, a directory
    (which may refuse to be listed), or a [Fault]: [os.stat] on the path
    raises (no search permission on the way, name too long, I/O error). *)
Inductive entry :=
  | File (content : string)
  | Dir (listable : bool)
  | Fault (e : exn).

Inductive level := DEBUG | INFO | SUCCESS | WARNING | ERROR.

(** [class Invoice(BaseModel)] *)
Record Invoice := {
  company_name : string;
  description : string;
  issue_date : string
}.

(** One constructor for each message the program logs. *)
Inductive message :=
  | FolderDoesNotExist (folder : path)
  | PathIsNotADirectory (folder : path)
  | FoundPdfFiles (n : nat) (folder : path)
  | PermissionDenied (folder : path)
  | CouldNotParseDate (date_str : string)
  | ApiResponse (name : string) (text : string)
  | FailedToParseJson (name : string) (e : exn)
  | ErrorExtracting (name : string) (e : exn)
  | TargetExists (new_filename : string)
  | Renamed (name new_filename : string)
  | FailedToRename (name : string) (e : exn)
  | Processing (name : string)
  | NoPdfFilesFound
  | ProcessingInterrupted
  | UnexpectedErrorProcessing (name : string) (e : exn)
  | NoFilesProcessed
  | ProcessingCompleted (successful total : nat)
  | AllFilesProcessed
  | SomeFilesFailed (failures : nat)
  | ScriptInterrupted
  | UnexpectedError (e : exn).

Record world := {
  fs : gmap path entry;
  log : list (level * message)      (* oldest first *)
}.

(** What the processor does not control: the C library, the extraction
    service and the operating system. *)
Record environment := {
  (* whether [strftime] pads [%Y] to four digits *)
  libc_pads_year : bool;
  (* [genai.Client()] raising, if it does *)
  client_error : option exn;
  (* [self.client.models.generate_content] on the bytes of a document:
     the text of the response, or the exception the call raises *)
  generate_content : path -> string -> result string;
  (* [json.loads] followed by the [Invoice] constructor: the validated
     record, or [JSONDecodeError] or [ValidationError] *)
  parse_invoice : string -> result Invoice;
  (* what [rename(src, dst)] raises without renaming, besides a missing
     source: the refusal of the operating system (permissions,
     cross-device link, no directory for [dst]), or the user's interrupt
     delivered before the call *)
  os_rename_error : path -> path -> option exn;
  (* whether the user's interrupt is delivered while [rename(src, dst)]
     runs: the rename is done, and [KeyboardInterrupt] is raised when it
     returns *)
  interrupt_after_rename : path -> path -> bool
}.

(** ** A state and exception monad *)

Definition M (A : Type) : Type := world -> world * result A.

Definition ret {A} (a : A) : M A := fun w => (w, Ret a).

Definition raise {A} (e : exn) : M A := fun w => (w, Raise e).

Definition bind {A B} (m : M A) (k : A -> M B) : M B :=
  fun w =>
    match m w with
    | (w', Ret a) => k a w'
    | (w', Raise e) => (w', Raise e)
    end.

Notation "'let*' x ':=' m 'in' k" := (bind m (fun x => k))
  (at level 10, x pattern, m at level 100, k at level 200).

(** [try: body / except cls1 as x: h1 x / except cls2 as x: h2 x ...]:
    each handler is a class test and a body; the first handler whose
    class the exception belongs to runs, and an exception no handler
    claims goes on. *)
Fixpoint find_handler {A} (handlers : list ((exn -> bool) * (exn -> M A)))
    (x : exn) : option (M A) :=
  match handlers with
  | [] => None
  | (cls, h) :: handlers' =>
      if cls x then Some (h x) else find_handler handlers' x
  end.

Definition try_except {A} (body : M A)
    (handlers : list ((exn -> bool) * (exn -> M A))) : M A :=
  fun w =>
    match body w with
    | (w', Raise x) =>
        match find_handler handlers x with
        | Some h => h w'
        | None => (w', Raise x)
        end
    | r => r
    end.

(** The classes named in the program's [except] clauses. *)
Definition isinstance (cls x : exn) : bool := bool_decide (x = cls).

(** A computation that reads the world without changing it. *)
Definition read {A} (f : world -> result A) : M A := fun w => (w, f w).

(** [logger.<level>(message)] *)
Definition logger (l : level) (m : message) : M unit :=
  fun w => ({| fs := fs w; log := log w ++ [(l, m)] |}, Ret tt).

(** ** File system primitives behind [pathlib] *)

Module Os.

(** [os.stat(p)]: what the file system holds at the path as written. *)
Definition stat (w : world) (p : path) : result entry :=
  match fs w !! p with
  | None => Raise FileNotFoundError
  | Some (Fault e) => Raise e
  | Some n => Ret n
  end.

(** [pathlib._ignore_error]: the errors that mean the path is not there. *)
Definition ignore_error (e : exn) : bool :=
  match e with
  | FileNotFoundError | NotADirectoryError => true
  | _ => false
  end.

(** [p.exists()], [p.is_dir()], [p.is_file()]: [stat] with the ignored
    errors turned into [False]; any other error is raised again. *)
Definition stat_test (test : entry -> bool) (w : world) (p : path)
    : result bool :=
  match stat w p with
  | Ret n => Ret (test n)
  | Raise e => if ignore_error e then Ret false else Raise e
  end.

Definition exists_ : world -> path -> result bool :=
  stat_test (fun _ => true).

Definition is_dir : world -> path -> result bool :=
  stat_test (fun n => match n with Dir _ => true | _ => false end).

Definition is_file : world -> path -> result bool :=
  stat_test (fun n => match n with File _ => true | _ => false end).

(** The paths directly inside [d]. *)
Definition children (w : world) (d : path) : list path :=
  filter (fun p => Path.parent p = d ∧ p ≠ d) (map fst (map_to_list (fs w))).

(** [d.iterdir()], read to its end. *)
Definition iterdir (w : world) (d : path) : result (list path) :=
  match stat w d with
  | Ret (Dir true) => Ret (children w d)
  | Ret (Dir false) => Raise PermissionError
  | Ret _ => Raise NotADirectoryError
  | Raise e => Raise e
  end.

(** [p.read_bytes()] *)
Definition read_bytes (w : world) (p : path) : result string :=
  match stat w p with
  | Ret (File content) => Ret content
  | Ret _ => Raise IsADirectoryError
  | Raise e => Raise e
  end.

(** Where a path at or below [src] lands when [src] is renamed to
    [dst]. *)
Definition reroot (src dst p : path) : path :=
  if bool_decide (src `prefix_of` p) then dst ++ drop (length src) p else p.

(** The file system after a successful rename: what was at or below
    [src] is at or below [dst], replacing what was there. *)
Definition move (src dst : path) (m : gmap path entry) : gmap path entry :=
  let moved := filter (fun kv => src `prefix_of` kv.1) (map_to_list m) in
  let kept :=
    filter (fun kv => ¬ src `prefix_of` kv.1 ∧ ¬ dst `prefix_of` kv.1) m in
  foldr (fun kv acc => <[reroot src dst kv.1 := kv.2]> acc) kept moved.

(** [src.rename(dst)].  [rename_file] calls it only when [exists()]
    has found nothing at [dst].  An interrupt that arrives during the
    system call is raised once the call has returned, with the rename
    done. *)
Definition rename (e : environment) (src dst : path) : M unit :=
  fun w =>
    match os_rename_error e src dst with
    | Some x => (w, Raise x)
    | None =>
        match stat w src with
        | Raise x => (w, Raise x)
        | Ret _ =>
            ({| fs := move src dst (fs w); log := log w |},
             if interrupt_after_rename e src dst then Raise KeyboardInterrupt
             else Ret tt)
        end
    end.

End Os.

(** ** [class InvoiceProcessor] *)

Section InvoiceProcessor.

(** [self]: the environment behind [self.client] and [self.data_folder]. *)
Context (e : environment) (data_folder : path).

Definition validate_folder : M bool :=
  let* exists_ := read (fun w => Os.exists_ w data_folder) in
  if negb exists_ then
    let* _ := logger ERROR (FolderDoesNotExist data_folder) in
    ret false
  else
  let* is_dir := read (fun w => Os.is_dir w data_folder) in
  if negb is_dir then
    let* _ := logger ERROR (PathIsNotADirectory data_folder) in
    ret false
  else
  ret true.

(** The list comprehension of [get_pdf_files]: the test
    [file.is_file() and file.suffix.lower() == '.pdf'] on each entry ... *)
Fixpoint select_pdf (w : world) (files : list path) : result (list path) :=
  match files with
  | [] => Ret []
  | file :: files' =>
      match Os.is_file w file with
      | Raise x => Raise x
      | Ret is_file =>
          let keep :=
            is_file && String.eqb (Str.lower (Path.suffix file)) ".pdf" in
          match select_pdf w files' with
          | Raise x => Raise x
          | Ret pdf_files => Ret (if keep then file :: pdf_files else pdf_files)
          end
      end
  end.

(** ... over [self.data_folder.iterdir()]. *)
Definition pdf_listing (w : world) : result (list path) :=
  match Os.iterdir w data_folder with
  | Ret files => select_pdf w files
  | Raise x => Raise x
  end.

Definition get_pdf_files : M (list path) :=
  try_except
    (let* pdf_files := read pdf_listing in
     let* _ := logger INFO (FoundPdfFiles (length pdf_files) data_folder) in
     ret pdf_files)
    [ (isinstance PermissionError,
       fun _ =>
         let* _ := logger ERROR (PermissionDenied data_folder) in
         ret []) ].

Definition parse_date_to_yyyymmdd (date_str : string) : M string :=
  match Datetime.strptime date_str with
  | Some date_obj => ret (Datetime.strftime (libc_pads_year e) date_obj)
  | None =>
      (* except ValueError *)
      let* _ := logger WARNING (CouldNotParseDate date_str) in
      (* Remove dashes and other non-numeric characters as fallback *)
      ret (Re.sub_empty (fun c => negb (Re.is_digit c)) date_str)
  end.

Definition extract_invoice_data (filepath : path) : M (option Invoice) :=
  try_except
    (let* data := read (fun w => Os.read_bytes w filepath) in
     let* response := read (fun _ => generate_content e filepath data) in
     let* _ := logger DEBUG (ApiResponse (Path.name filepath) response) in
     (* Parse the JSON response *)
     let* invoice := read (fun _ => parse_invoice e response) in
     ret (Some invoice))
    [ (isinstance JSONDecodeError,
       fun x =>
         let* _ := logger ERROR (FailedToParseJson (Path.name filepath) x) in
         ret None);
      (is_Exception,
       fun x =>
         let* _ := logger ERROR (ErrorExtracting (Path.name filepath) x) in
         ret None) ].

Definition generate_new_filename (invoice : Invoice) (original_path : path)
    : M string :=
  let company_name := sanitize_filename (company_name invoice) in
  let description := sanitize_filename (description invoice) in
  let* issue_date := parse_date_to_yyyymmdd (issue_date invoice) in
  let file_extension := Path.suffix original_path in
  ret (company_name ++ "_" ++ description ++ "_" ++ issue_date
         ++ file_extension)%string.

Definition rename_file (original_path : path) (new_filename : string) : M bool :=
  let new_path := Path.truediv (Path.parent original_path) new_filename in
  (* Check if target file already exists *)
  let* exists_ := read (fun w => Os.exists_ w new_path) in
  if exists_ then
    let* _ := logger WARNING (TargetExists new_filename) in
    ret false
  else
  try_except
    (let* _ := Os.rename e original_path new_path in
     let* _ := logger INFO (Renamed (Path.name original_path) new_filename) in
     ret true)
    [ (is_Exception,
       fun x =>
         let* _ := logger ERROR (FailedToRename (Path.name original_path) x) in
         ret false) ].

Definition process_file (filepath : path) : M bool :=
  let* _ := logger INFO (Processing (Path.name filepath)) in
  (* Extract invoice data *)
  let* invoice := extract_invoice_data filepath in
  match invoice with
  | None => ret false
  | Some invoice =>
      (* Generate new filename *)
      let* new_filename := generate_new_filename invoice filepath in
      (* Rename the file *)
      rename_file filepath new_filename
  end.

(** The [for] loop of [process_all_files]; its value is
    [successful_count] when the loop is left. *)
Fixpoint process_loop (pdf_files : list path) (successful_count : nat)
    : M nat :=
  match pdf_files with
  | [] => ret successful_count
  | pdf_file :: rest =>
      fun w =>
        match process_file pdf_file w with
        | (w', Ret true) => process_loop rest (successful_count + 1) w'
        | (w', Ret false) => process_loop rest successful_count w'
        | (w', Raise x) =>
            if isinstance KeyboardInterrupt x then
              (* break *)
              (let* _ := logger INFO ProcessingInterrupted in
               ret successful_count) w'
            else if is_Exception x then
              (* continue *)
              (let* _ := logger ERROR
                           (UnexpectedErrorProcessing (Path.name pdf_file) x) in
               process_loop rest successful_count) w'
            else (w', Raise x)
        end
  end.

Definition process_all_files : M (nat * nat) :=
  let* valid := validate_folder in
  if negb valid then ret (0, 0)
  else
  let* pdf_files := get_pdf_files in
  match pdf_files with
  | [] =>
      let* _ := logger WARNING NoPdfFilesFound in
      ret (0, 0)
  | _ =>
      let* successful_count := process_loop pdf_files 0 in
      ret (successful_count, length pdf_files)
  end.

End InvoiceProcessor.

(** ** [main] and the exit status *)

Definition main (e : environment) (folder : path) : M nat :=
  try_except
    (let* _ := (* processor = InvoiceProcessor(args.folder) *)
               (match client_error e with
                | Some x => raise x
                | None => ret tt
                end) in
     let* counts := process_all_files e folder in
     let '(successful, total) := counts in
     if (total =? 0)%nat then
       let* _ := logger ERROR NoFilesProcessed in
       ret 1
     else
     let* _ := logger INFO (ProcessingCompleted successful total) in
     if (successful =? total)%nat then
       let* _ := logger SUCCESS AllFilesProcessed in
       ret 0
     else
       let* _ := logger WARNING (SomeFilesFailed (total - successful)) in
       ret 1)
    [ (isinstance KeyboardInterrupt,
       fun _ =>
         let* _ := logger INFO ScriptInterrupted in
         ret 1);
      (is_Exception,
       fun x =>
         let* _ := logger ERROR (UnexpectedError x) in
         ret 1) ].

(** [sys.exit(main())]: the status is the value [main] returns; an
    exception that leaves [main] ends the interpreter with status 1. *)
Definition exit_code (e : environment) (folder : path) (w : world) : nat :=
  match (main e folder w).2 with
  | Ret code => code
  | Raise _ => 1
  end.

(** ** Vocabulary of the properties *)

(** Texts of dates. *)
Module DateText.

Import Datetime.

(** The one-digit decimal of [n]. *)
Definition dec1 (n : nat) : string := String (digit_char n) EmptyString.

(** A day of the month as [%d] reads it: two digits, or for a day below
    ten its single digit, alone or after one space. *)
Definition day_text (d : nat) (t : string) : Prop :=
  1 <= d <= 31 /\
  (t = pad2 d \/ (d <= 9 /\ (t = dec1 d \/ t = String " " (dec1 d)))).

(** A month as [%m] reads it: two digits, or its single digit. *)
Definition month_text (m : nat) (t : string) : Prop :=
  1 <= m <= 12 /\ (t = pad2 m \/ (m <= 9 /\ t = dec1 m)).

(** A year as [%Y] reads it: exactly four digits. *)
Definition year_text (y : nat) (t : string) : Prop :=
  y <= MAXYEAR /\ t = pad4 y.

(** [s] is a day, a dash, a month, a dash and a year in these forms. *)
Definition reads_as (s : string) (y m d : nat) : Prop :=
  exists dt mt yt,
    day_text d dt /\ month_text m mt /\ year_text y yt /\
    s = (dt ++ "-" ++ mt ++ "-" ++ yt)%string.


(** The date exists in the calendar, from year 1 on. *)
Definition valid_date (y m d : nat) : Prop :=
  1 <= y <= MAXYEAR /\ 1 <= m <= 12 /\ 1 <= d <= days_in_month y m.

(** The digit characters of [s], in their order. *)
Definition digits_of (s : string) : string :=
  string_of_list_ascii (List.filter Re.is_digit (list_ascii_of_string s)).

End DateText.

(** What the log tells about a run: the files whose processing started,
    the files that were renamed, and whether the loop was interrupted. *)
Module Log.

Definition processing_name (r : level * message) : option string :=
  match r.2 with Processing name => Some name | _ => None end.

Definition renamed_name (r : level * message) : option string :=
  match r.2 with Renamed name _ => Some name | _ => None end.

Definition is_interrupt (r : level * message) : bool :=
  match r.2 with ProcessingInterrupted => true | _ => false end.

Definition processing_names (l : list (level * message)) : list string :=
  omap processing_name l.

Definition renamed_names (l : list (level * message)) : list string :=
  omap renamed_name l.

Definition interrupted (l : list (level * message)) : bool :=
  existsb is_interrupt l.

(** Nothing about the progress of the batch is written. *)
Definition quiet (evs : list (level * message)) : Prop :=
  processing_names evs = [] /\ renamed_names evs = []
  /\ interrupted evs = false.

End Log.

(** There is a file or a directory at [p]. *)
Definition holds_entry (w : world) (p : path) : bool :=
  match fs w !! p with
  | Some (File _) | Some (Dir _) => true
  | _ => false
  end.

(** The run on [folder] from [w] gets as far as the list [files] of
    documents, in the world [w0]. *)
Definition discovers (e : environment) (folder : path) (w w0 : world)
    (files : list path) : Prop :=
  client_error e = None /\
  exists wv,
    validate_folder folder w = (wv, Ret true) /\
    get_pdf_files folder wv = (w0, Ret files).

(** The loop over [files] from [w0] logs the renaming of each of them. *)
Definition all_renamed (e : environment) (files : list path) (w0 : world)
    : Prop :=
  exists w' n evs,
    process_loop e files 0 w0 = (w', Ret n) /\
    log w' = log w0 ++ evs /\
    Log.renamed_names evs = map Path.name files.

(** The world after the [except Exception] clause of the loop. *)
Definition after_unexpected (pdf_file : path) (x : exn) (w : world) : world :=
  {| fs := fs w;
     log := log w ++ [(ERROR, UnexpectedErrorProcessing (Path.name pdf_file) x)] |}.

(** The world after the [except KeyboardInterrupt] clause of the loop. *)
Definition after_interrupt (w : world) : world :=
  {| fs := fs w; log := log w ++ [(INFO, ProcessingInterrupted)] |}.

(** ** Names and destinations

    What the pipeline computes from an invoice and a path, as pure
    functions. *)

(** The date token of a text: what [parse_date_to_yyyymmdd] returns. *)
Definition date_token (e : environment) (date_str : string) : string :=
  match Datetime.strptime date_str with
  | Some date_obj => Datetime.strftime (libc_pads_year e) date_obj
  | None => DateText.digits_of date_str
  end.

(** The name [generate_new_filename] gives. *)
Definition new_name (e : environment) (invoice : Invoice) (original_path : path)
    : string :=
  (sanitize_filename (company_name invoice) ++ "_"
   ++ sanitize_filename (description invoice) ++ "_"
   ++ date_token e (issue_date invoice) ++ Path.suffix original_path)%string.

(** Where [rename_file] puts a file. *)
Definition destination (original_path : path) (new_filename : string) : path :=
  Path.truediv (Path.parent original_path) new_filename.

(** A text that names one entry of a directory: not empty, neither [.]
    nor [..], and without a slash. *)
Definition component (n : string) : Prop :=
  n <> EmptyString /\ n <> "." /\ n <> ".." /\ ~ Str.occurs "/" n.

(** A text that [sanitize_filename] has nothing to do on. *)
Definition safe_text (x : string) : Prop :=
  (forall c, Str.occurs c x -> Re.is_invalid c = false /\ Re.is_space c = false)
  /\ (forall c, Str.head x = Some c -> space_or_dot c = false)
  /\ (forall c, Str.last x = Some c -> space_or_dot c = false).

(** No file name in the file system contains a slash. *)
Definition plain_names (w : world) : Prop :=
  forall p, is_Some (fs w !! p) -> ~ Str.occurs "/" (Path.name p).

(** ** A sample run

    A folder with three documents and two other entries.  The service
    reads [a.pdf] as an invoice of Acme Corp, fails on [b.PDF] and reads
    any other document as an invoice of Beta Ltd. *)
Module Sample.

Definition folder : path := ["/"; "inv"].

Definition acme : Invoice :=
  {| company_name := "Acme Corp";
     description := "subscription";
     issue_date := "05-03-2024" |}.

Definition beta : Invoice :=
  {| company_name := "Beta: Ltd.";
     description := "course";
     issue_date := "5-3-2024" |}.

(** The responses of the service, named rather than spelled out. *)
Definition service (p : path) (data : string) : result string :=
  if bool_decide (p = folder ++ ["a.pdf"]) then Ret "acme.json"
  else if bool_decide (p = folder ++ ["b.PDF"]) then Raise APIError
  else Ret "beta.json".

Definition decode (text : string) : result Invoice :=
  if String.eqb text "acme.json" then Ret acme
  else if String.eqb text "beta.json" then Ret beta
  else Raise JSONDecodeError.

Definition env : environment :=
  {| libc_pads_year := false;
     client_error := None;
     generate_content := service;
     parse_invoice := decode;
     os_rename_error := fun _ _ => None;
     interrupt_after_rename := fun _ _ => false |}.

(** The same, with the user interrupting the call for [a.pdf]. *)
Definition env_interrupted : environment :=
  {| libc_pads_year := false;
     client_error := None;
     generate_content := fun p data =>
       if bool_decide (p = folder ++ ["a.pdf"]) then Raise KeyboardInterrupt
       else service p data;
     parse_invoice := decode;
     os_rename_error := fun _ _ => None;
     interrupt_after_rename := fun _ _ => false |}.

Definition files : gmap path entry :=
  list_to_map
    [ (["/"], Dir true);
      (folder, Dir true);
      (folder ++ ["a.pdf"], File "A");
      (folder ++ ["b.PDF"], File "B");
      (folder ++ ["c.pdf"], File "C");
      (folder ++ ["notes.txt"], File "N");
      (folder ++ ["sub"], Dir true);
      (folder ++ ["sub"; "d.pdf"], File "D");
      (["/"; "locked"], Dir false) ].

Definition w0 : world := {| fs := files; log := [] |}.

(** The same, with a service that reads [b.PDF] too. *)
Definition env_ok : environment :=
  {| libc_pads_year := false;
     client_error := None;
     generate_content := fun p data =>
       if bool_decide (p = folder ++ ["a.pdf"]) then Ret "acme.json"
       else Ret "beta.json";
     parse_invoice := decode;
     os_rename_error := fun _ _ => None;
     interrupt_after_rename := fun _ _ => false |}.

(** The same folder, where the new name of [a.pdf] cannot be examined:
    [stat] on it raises [OSError]. *)
Definition w_fault : world :=
  {| fs := <[folder ++ ["Acme_Corp_subscription_20240305.pdf"] := Fault OSError]>
             files;
     log := [] |}.

End Sample.

(** The sample folder with one more entry, [x.pdf], that may not be
    examined: [stat] on it raises [PermissionError]. *)
Definition w_unreadable : world :=
  {| fs := <[Sample.folder ++ ["x.pdf"] := Fault PermissionError]> Sample.files;
     log := [] |}.

(** The sample service, with the user interrupting every rename while
    it runs. *)
Definition env_interrupted_rename : environment :=
  {| libc_pads_year := false;
     client_error := None;
     generate_content := Sample.service;
     parse_invoice := Sample.decode;
     os_rename_error := fun _ _ => None;
     interrupt_after_rename := fun _ _ => true |}.

(** * Properties *)

(** ** Strings: substitution and stripping *)

Section StringFacts.

Variable cls : ascii -> bool.

Lemma occurs_cons c d s :
  Str.occurs c (String d s) <-> d = c \/ Str.occurs c s.
Proof. reflexivity. Qed.

Lemma occurs_sub_empty c s :
  Str.occurs c (Re.sub_empty cls s) -> Str.occurs c s /\ cls c = false.
Proof.
  induction s as [|d s IH]; simpl; [intros []|].
  destruct (cls d) eqn:Hd.
  - intros H. apply IH in H as [H1 H2]. split; [right|]; assumption.
  - intros [->|H].
    + split; [left; reflexivity | assumption].
    + apply IH in H as [H1 H2]. split; [right|]; assumption.
Qed.

Lemma occurs_sub_runs rep c b s :
  Str.occurs c (Re.sub_runs cls rep b s) ->
  c = rep \/ (Str.occurs c s /\ cls c = false).
Proof.
  revert b. induction s as [|d s IH]; intros b; simpl; [intros []|].
  destruct (cls d) eqn:Hd.
  - destruct b; [intros H | intros [<-|H]]; try (left; reflexivity);
      apply IH in H as [->|[H1 H2]]; [left|right|left|right]; try reflexivity;
      (split; [right|]; assumption).
  - intros [->|H].
    + right. split; [left; reflexivity | assumption].
    + apply IH in H as [->|[H1 H2]]; [left; reflexivity | right].
      split; [right|]; assumption.
Qed.

Lemma occurs_lstrip c s : Str.occurs c (Str.lstrip cls s) -> Str.occurs c s.
Proof.
  induction s as [|d s IH]; simpl; [intros []|].
  destruct (cls d); [intros H; right; exact (IH H) | trivial].
Qed.

Lemma occurs_rstrip c s : Str.occurs c (Str.rstrip cls s) -> Str.occurs c s.
Proof.
  induction s as [|d s IH]; simpl; [intros []|].
  destruct (Str.rstrip cls s) as [|d' s'] eqn:Hr.
  - destruct (cls d); [intros [] | intros [->|[]]; left; reflexivity].
  - intros [->|H]; [left; reflexivity | right; exact (IH H)].
Qed.

Lemma sub_empty_id s :
  (forall c, Str.occurs c s -> cls c = false) -> Re.sub_empty cls s = s.
Proof.
  induction s as [|d s IH]; simpl; [reflexivity|]. intros H.
  rewrite (H d) by (left; reflexivity).
  f_equal. apply IH. intros c Hc. apply H. right; assumption.
Qed.

Lemma sub_runs_id rep b s :
  (forall c, Str.occurs c s -> cls c = false) -> Re.sub_runs cls rep b s = s.
Proof.
  revert b. induction s as [|d s IH]; intros b H; simpl; [reflexivity|].
  rewrite (H d) by (left; reflexivity).
  f_equal. apply IH. intros c Hc. apply H. right; assumption.
Qed.

Lemma has_run_none s :
  (forall c, Str.occurs c s -> cls c = false) -> Str.has_run cls s = false.
Proof.
  induction s as [|d s IH]; [reflexivity|]. intros H.
  destruct s as [|d' s']; [reflexivity|].
  change (Str.has_run cls (String d (String d' s')))
    with ((cls d && cls d') || Str.has_run cls (String d' s')).
  rewrite (H d) by (left; reflexivity). simpl andb. simpl orb.
  apply IH. intros c Hc. apply H. right; assumption.
Qed.

Lemma head_lstrip c s : Str.head (Str.lstrip cls s) = Some c -> cls c = false.
Proof.
  induction s as [|d s IH]; simpl; [discriminate|].
  destruct (cls d) eqn:Hd; [assumption|]. simpl. intros [= <-]. assumption.
Qed.

Lemma last_cons d s :
  Str.last (String d s) =
  match Str.last s with Some c => Some c | None => Some d end.
Proof.
  revert d. induction s as [|d' s' IH]; intros d; [reflexivity|].
  change (Str.last (String d (String d' s'))) with (Str.last (String d' s')).
  rewrite (IH d'). destruct (Str.last s'); reflexivity.
Qed.

Lemma last_None s : Str.last s = None -> s = EmptyString.
Proof.
  induction s as [|d s IH]; [reflexivity|]. rewrite last_cons.
  destruct (Str.last s); discriminate.
Qed.

Lemma last_rstrip c s : Str.last (Str.rstrip cls s) = Some c -> cls c = false.
Proof.
  induction s as [|d s IH]; simpl; [discriminate|].
  destruct (Str.rstrip cls s) as [|d' s'] eqn:Hr.
  - destruct (cls d) eqn:Hd; simpl; [discriminate|]. intros [= <-]. assumption.
  - rewrite last_cons. destruct (Str.last (String d' s')) eqn:Hl.
    + intros [= <-]. apply IH. reflexivity.
    + apply last_None in Hl. discriminate.
Qed.

Lemma last_lstrip c s :
  Str.last (Str.lstrip cls s) = Some c -> Str.last s = Some c.
Proof.
  induction s as [|d s IH]; [discriminate|].
  change (Str.lstrip cls (String d s))
    with (if cls d then Str.lstrip cls s else String d s).
  destruct (cls d); [|trivial].
  intros H. rewrite last_cons, (IH H). reflexivity.
Qed.

Lemma lstrip_id s :
  (forall c, Str.head s = Some c -> cls c = false) -> Str.lstrip cls s = s.
Proof.
  destruct s as [|d s]; [reflexivity|]. simpl. intros H.
  rewrite (H d); reflexivity.
Qed.

Lemma rstrip_id s :
  (forall c, Str.last s = Some c -> cls c = false) -> Str.rstrip cls s = s.
Proof.
  induction s as [|d s IH]; [reflexivity|]. intros H.
  rewrite last_cons in H. simpl.
  destruct (Str.last s) as [c|] eqn:Hl.
  - rewrite IH by (intros c' [= <-]; apply H; reflexivity).
    destruct s; [discriminate | reflexivity].
  - apply last_None in Hl. subst s. simpl.
    rewrite (H d); reflexivity.
Qed.

Lemma strip_id s :
  (forall c, Str.head s = Some c -> cls c = false) ->
  (forall c, Str.last s = Some c -> cls c = false) ->
  Str.strip cls s = s.
Proof.
  intros Hh Hl. unfold Str.strip. rewrite (rstrip_id _ Hl). apply lstrip_id, Hh.
Qed.

Lemma occurs_strip c s : Str.occurs c (Str.strip cls s) -> Str.occurs c s.
Proof. intros H. apply occurs_rstrip, occurs_lstrip, H. Qed.

Lemma head_strip c s : Str.head (Str.strip cls s) = Some c -> cls c = false.
Proof. apply head_lstrip. Qed.

Lemma last_strip c s : Str.last (Str.strip cls s) = Some c -> cls c = false.
Proof. intros H. apply last_lstrip in H. apply last_rstrip in H. exact H. Qed.

End StringFacts.

(** ** [sanitize_filename] *)

Lemma occurs_sanitize_filename c x :
  Str.occurs c (sanitize_filename x) ->
  Re.is_invalid c = false /\ Re.is_space c = false.
Proof.
  unfold sanitize_filename. intros H.
  apply occurs_strip, occurs_sub_runs in H as [->|[H Hs]].
  - split; reflexivity.
  - apply occurs_sub_empty in H as [_ Hi]. split; assumption.
Qed.

Lemma space_or_dot_false c :
  space_or_dot c = false -> c <> " "%char /\ c <> "."%char.
Proof. intros H. split; intros ->; discriminate H. Qed.

(** C5: whatever the text, its sanitized form contains none of the nine
    characters that are invalid in file names, contains no white space
    at all (hence no run of white space), and neither starts nor ends
    with a space or a dot. *)
Theorem sanitize_filename_safe (x : string) :
  (forall c,
     In c ["<"; ">"; ":"; ascii_of_nat 34; "/"; "\"; "|"; "?"; "*"]%char ->
     ~ Str.occurs c (sanitize_filename x))
  /\ (forall c, Str.occurs c (sanitize_filename x) -> Re.is_space c = false)
  /\ Str.has_run Re.is_space (sanitize_filename x) = false
  /\ (forall c, Str.head (sanitize_filename x) = Some c ->
        c <> " "%char /\ c <> "."%char)
  /\ (forall c, Str.last (sanitize_filename x) = Some c ->
        c <> " "%char /\ c <> "."%char).
Proof.
  repeat split.
  - intros c Hc Ho. apply occurs_sanitize_filename in Ho as [Hi _].
    simpl in Hc. decompose [or] Hc; subst; try discriminate Hi. assumption.
  - intros c Ho. apply (occurs_sanitize_filename c x Ho).
  - apply has_run_none. intros c Ho. apply (occurs_sanitize_filename c x Ho).
  - apply space_or_dot_false. eapply head_strip. exact H.
  - apply space_or_dot_false. eapply head_strip. exact H.
  - apply space_or_dot_false. eapply last_strip. exact H.
  - apply space_or_dot_false. eapply last_strip. exact H.
Qed.

(** C6: sanitizing a sanitized text changes nothing. *)
Theorem sanitize_filename_idempotent (x : string) :
  sanitize_filename (sanitize_filename x) = sanitize_filename x.
Proof.
  set (y := sanitize_filename x).
  assert (Hy : forall c, Str.occurs c y ->
                 Re.is_invalid c = false /\ Re.is_space c = false)
    by (intros c; apply occurs_sanitize_filename).
  unfold sanitize_filename at 1.
  rewrite sub_empty_id by (intros c Hc; apply (Hy c Hc)).
  rewrite sub_runs_id by (intros c Hc; apply (Hy c Hc)).
  apply strip_id; intros c Hc.
  - apply (head_strip _ _ _ Hc).
  - apply (last_strip _ _ _ Hc).
Qed.

(** ** Dates: what [strptime] accepts for [%d-%m-%Y] *)

Section DateFacts.

Import Datetime DateText.

Ltac lia_div := zify; Z.div_mod_to_equations; lia.

Lemma ord_digit_char n : n < 10 -> Re.ord (digit_char n) = 48 + n.
Proof.
  intros H. unfold Re.ord, digit_char. apply nat_ascii_embedding. lia.
Qed.

Lemma digit_char_ord c : 48 <= Re.ord c -> digit_char (Re.ord c - 48) = c.
Proof.
  unfold digit_char, Re.ord. intros H.
  replace (48 + (nat_of_ascii c - 48)) with (nat_of_ascii c) by lia.
  apply ascii_nat_embedding.
Qed.

Lemma digit_val_char n : n < 10 -> digit_val (digit_char n) = n.
Proof. intros H. unfold digit_val. rewrite ord_digit_char by assumption. lia. Qed.

Lemma is_digit_char n : n < 10 -> Re.is_digit (digit_char n) = true.
Proof.
  intros H. unfold Re.is_digit. rewrite ord_digit_char by assumption.
  apply andb_true_iff. split; apply Nat.leb_le; lia.
Qed.

Lemma is_space_digit_char n : n < 10 -> Re.is_space (digit_char n) = false.
Proof.
  intros H. unfold Re.is_space. rewrite ord_digit_char by assumption.
  repeat (apply orb_false_iff; split);
    try (apply andb_false_iff; right; apply Nat.leb_gt; lia);
    apply Nat.eqb_neq; lia.
Qed.

Lemma range_inv a b c :
  a < 10 -> b < 10 -> range (digit_char a) (digit_char b) c = true ->
  exists n, a <= n <= b /\ c = digit_char n.
Proof.
  intros Ha Hb H. unfold range in H. apply andb_true_iff in H as [H1 H2].
  apply Nat.leb_le in H1, H2. rewrite ord_digit_char in H1, H2 by assumption.
  exists (Re.ord c - 48). split; [lia|]. symmetry. apply digit_char_ord. lia.
Qed.

Lemma is_digit_inv c :
  Re.is_digit c = true -> exists n, n < 10 /\ c = digit_char n.
Proof.
  intros H. unfold Re.is_digit in H. apply andb_true_iff in H as [H1 H2].
  apply Nat.leb_le in H1, H2.
  exists (Re.ord c - 48). split; [lia|]. symmetry. apply digit_char_ord. lia.
Qed.

Lemma lit_inv a c : lit a c = true -> c = a.
Proof. intros H. symmetry. apply Ascii.eqb_eq, H. Qed.

Lemma match_classes_nil s m rest :
  match_classes [] s = Some (m, rest) -> m = EmptyString /\ rest = s.
Proof. simpl. intros [= <- <-]. split; reflexivity. Qed.

Lemma match_classes_cons cl cs s m rest :
  match_classes (cl :: cs) s = Some (m, rest) ->
  exists c s' m',
    s = String c s' /\ cl c = true /\ m = String c m' /\
    match_classes cs s' = Some (m', rest).
Proof.
  simpl. destruct s as [|c s']; [discriminate|].
  destruct (cl c) eqn:Hc; [|discriminate].
  destruct (match_classes cs s') as [[m' rest']|] eqn:Hm; [|discriminate].
  intros [= <- <-]. exists c, s', m'. repeat split; assumption.
Qed.

Lemma match_alts_Some {A} alts (k : string -> string -> option A) s r :
  match_alts alts k s = Some r ->
  exists alt m rest,
    In alt alts /\ match_classes alt s = Some (m, rest) /\ k m rest = Some r.
Proof.
  induction alts as [|alt alts IH]; simpl; [discriminate|].
  destruct (match_classes alt s) as [[m rest]|] eqn:Hm.
  - destruct (k m rest) as [r'|] eqn:Hk.
    + intros [= <-]. exists alt, m, rest. auto.
    + intros H. destruct (IH H) as (alt' & m' & rest' & Hin & H1 & H2).
      exists alt', m', rest'. auto.
  - intros H. destruct (IH H) as (alt' & m' & rest' & Hin & H1 & H2).
    exists alt', m', rest'. auto.
Qed.

(** Case analysis on a number known to lie in a short range. *)
Ltac enum n :=
  destruct n as [|n];
  [ try (exfalso; lia) | first [ exfalso; lia | enum n ] ].

Ltac split_classes H :=
  repeat
    (let c := fresh "c" in let s := fresh "s" in let m := fresh "m" in
     let Hc := fresh "Hc" in
     apply match_classes_cons in H as (c & s & m & -> & Hc & -> & H));
  apply match_classes_nil in H as [-> ->].

Ltac class_facts :=
  repeat match goal with
  | H : lit _ _ = true |- _ => apply lit_inv in H; subst
  | H : range _ _ _ = true |- _ =>
      let n := fresh "n" in let Hn := fresh "Hn" in
      first [ apply (range_inv 0 1) in H as (n & Hn & ->); [|lia..]
            | apply (range_inv 0 2) in H as (n & Hn & ->); [|lia..]
            | apply (range_inv 1 2) in H as (n & Hn & ->); [|lia..]
            | apply (range_inv 1 9) in H as (n & Hn & ->); [|lia..] ]
  | H : Re.is_digit _ = true |- _ =>
      let n := fresh "n" in let Hn := fresh "Hn" in
      apply is_digit_inv in H as (n & Hn & ->)
  end.

Ltac eval_int :=
  repeat match goal with
  | |- context [int ?t] =>
      let v := eval vm_compute in (int t) in change (int t) with v
  end.

Ltac pick_text :=
  first [ left; reflexivity
        | right; split;
          [lia | first [reflexivity | left; reflexivity | right; reflexivity]] ].

Lemma re_d_sound alt s m rest :
  In alt re_d -> match_classes alt s = Some (m, rest) ->
  s = (m ++ rest)%string /\ day_text (int m) m.
Proof.
  intros Hin H. simpl in Hin.
  destruct Hin as [<-|[<-|[<-|[<-|[<-|[]]]]]]; split_classes H; class_facts;
    (split; [reflexivity|]);
    repeat match goal with n : nat |- _ => enum n end;
    eval_int; (split; [lia | pick_text]).
Qed.

Lemma re_m_sound alt s m rest :
  In alt re_m -> match_classes alt s = Some (m, rest) ->
  s = (m ++ rest)%string /\ month_text (int m) m.
Proof.
  intros Hin H. simpl in Hin.
  destruct Hin as [<-|[<-|[<-|[]]]]; split_classes H; class_facts;
    (split; [reflexivity|]);
    repeat match goal with n : nat |- _ => enum n end;
    eval_int; (split; [lia | pick_text]).
Qed.

Lemma lstrip_cons cls c r :
  Str.lstrip cls (String c r) = if cls c then Str.lstrip cls r else String c r.
Proof. reflexivity. Qed.

Lemma int_digits_cons acc c r :
  int_digits acc (String c r) = int_digits (10 * acc + digit_val c) r.
Proof. reflexivity. Qed.

Lemma int_digits_nil acc : int_digits acc EmptyString = acc.
Proof. reflexivity. Qed.

Lemma int_four_digits a b c d :
  a < 10 -> b < 10 -> c < 10 -> d < 10 ->
  int (String (digit_char a) (String (digit_char b)
         (String (digit_char c) (String (digit_char d) EmptyString))))
  = 10 * (10 * (10 * (10 * 0 + a) + b) + c) + d.
Proof.
  intros Ha Hb Hc Hd. unfold int.
  rewrite lstrip_cons, is_space_digit_char by assumption.
  rewrite !int_digits_cons, int_digits_nil.
  rewrite !digit_val_char by assumption. reflexivity.
Qed.

Lemma pad4_digits a b c d :
  a < 10 -> b < 10 -> c < 10 -> d < 10 ->
  pad4 (10 * (10 * (10 * (10 * 0 + a) + b) + c) + d)
  = String (digit_char a) (String (digit_char b)
      (String (digit_char c) (String (digit_char d) EmptyString))).
Proof.
  intros Ha Hb Hc Hd. unfold pad4, pad2.
  set (y := 10 * (10 * (10 * (10 * 0 + a) + b) + c) + d).
  replace (y / 1000 mod 10) with a by (subst y; lia_div).
  replace (y / 100 mod 10) with b by (subst y; lia_div).
  replace (y / 10 mod 10) with c by (subst y; lia_div).
  replace (y mod 10) with d by (subst y; lia_div).
  reflexivity.
Qed.

Lemma int_pad4 y : y <= MAXYEAR -> int (pad4 y) = y.
Proof.
  intros Hy. unfold MAXYEAR in Hy. unfold pad4, pad2.
  rewrite int_four_digits by (apply Nat.mod_upper_bound; lia).
  lia_div.
Qed.

Lemma re_Y_sound alt s m rest :
  In alt re_Y -> match_classes alt s = Some (m, rest) ->
  s = (m ++ rest)%string /\ year_text (int m) m.
Proof.
  intros Hin H. simpl in Hin. destruct Hin as [<-|[]].
  split_classes H. class_facts. split; [reflexivity|].
  unfold year_text. rewrite int_four_digits by assumption.
  split; [unfold MAXYEAR; lia|]. symmetry. apply pad4_digits; assumption.
Qed.

(** The other way round: a text of the accepted form is matched, and
    read as the number it stands for. *)
Lemma re_d_complete {A} d dt (k : string -> string -> option A) rest :
  day_text d dt ->
  (forall m c r, c <> "-"%char -> k m (String c r) = None) ->
  match_alts re_d k (dt ++ String "-" rest) = k dt (String "-" rest)
  /\ int dt = d.
Proof.
  intros [Hd Ht] Hk.
  assert (Hcases : dt = pad2 d \/ d <= 9 /\ dt = dec1 d
                   \/ d <= 9 /\ dt = String " " (dec1 d)) by tauto.
  clear Ht.
  destruct Hcases as [->|[[H9 ->]|[H9 ->]]]; enum d;
    (split; [|vm_compute; reflexivity]);
    vm_compute;
    repeat match goal with
    | |- context [k ?a (String ?c ?r)] => rewrite (Hk a c r) by discriminate
    end;
    repeat match goal with |- context [k ?a ?b] => destruct (k a b) end;
    reflexivity.
Qed.

Lemma re_m_complete {A} m mt (k : string -> string -> option A) rest :
  month_text m mt ->
  (forall t c r, c <> "-"%char -> k t (String c r) = None) ->
  match_alts re_m k (mt ++ String "-" rest) = k mt (String "-" rest)
  /\ int mt = m.
Proof.
  intros [Hm Ht] Hk.
  destruct Ht as [->|[H9 ->]]; enum m;
    (split; [|vm_compute; reflexivity]);
    vm_compute;
    repeat match goal with
    | |- context [k ?a (String ?c ?r)] => rewrite (Hk a c r) by discriminate
    end;
    repeat match goal with |- context [k ?a ?b] => destruct (k a b) end;
    reflexivity.
Qed.

Lemma append_cons c s t :
  (String c s ++ t)%string = String c (s ++ t)%string.
Proof. reflexivity. Qed.

Lemma append_nil t : (EmptyString ++ t)%string = t.
Proof. reflexivity. Qed.

Lemma re_Y_complete y rest :
  y <= MAXYEAR ->
  match_classes [Re.is_digit; Re.is_digit; Re.is_digit; Re.is_digit]
    (pad4 y ++ rest) = Some (pad4 y, rest).
Proof.
  intros Hy. unfold MAXYEAR in Hy. unfold pad4, pad2.
  rewrite !append_cons, append_nil. cbn [match_classes].
  rewrite !is_digit_char by (apply Nat.mod_upper_bound; lia).
  reflexivity.
Qed.


Lemma check_date_fields_valid y m d :
  check_date_fields y m d = true <-> valid_date y m d.
Proof.
  unfold check_date_fields, valid_date.
  rewrite !andb_true_iff, !Nat.leb_le. tauto.
Qed.

Lemma after_dash_None p' (t : string) c r :
  c <> "-"%char ->
  match re_match (Literal "-" :: p') (String c r) with
  | Some (gs, e) => Some (t :: gs, e)
  | None => None
  end = None.
Proof.
  intros Hc. cbn [re_match].
  destruct (Ascii.eqb_spec "-" c) as [E|_]; [congruence | reflexivity].
Qed.

Lemma re_match_dash p' r : re_match (Literal "-" :: p') (String "-" r) = re_match p' r.
Proof. reflexivity. Qed.

Lemma re_match_group alts p' s :
  re_match (Group alts :: p') s =
  match_alts alts
    (fun m rest =>
       match re_match p' rest with
       | Some (gs, e) => Some (m :: gs, e)
       | None => None
       end) s.
Proof. reflexivity. Qed.

Lemma re_match_format dt mt y d m :
  day_text d dt -> month_text m mt -> y <= MAXYEAR ->
  re_match format_regex (dt ++ "-" ++ mt ++ "-" ++ pad4 y)
  = Some ([dt; mt; pad4 y], EmptyString)
  /\ int dt = d /\ int mt = m.
Proof.
  intros Hd Hm Hy. unfold format_regex.
  rewrite !(append_cons "-"), !append_nil.
  rewrite re_match_group.
  edestruct (re_d_complete (A := list string * string) d dt) as [-> Hdi];
    [exact Hd | intros t c r Hc; cbv beta; apply after_dash_None, Hc |].
  rewrite re_match_dash, re_match_group.
  edestruct (re_m_complete (A := list string * string) m mt) as [-> Hmi];
    [exact Hm | intros t c r Hc; cbv beta; apply after_dash_None, Hc |].
  rewrite re_match_dash, re_match_group.
  unfold re_Y. cbn [match_alts].
  change (pad4 y) with (pad4 y ++ EmptyString)%string at 1.
  rewrite re_Y_complete by assumption.
  cbn [re_match]. auto.
Qed.

Lemma strptime_complete s y m d :
  reads_as s y m d -> valid_date y m d -> strptime s = Some (y, m, d).
Proof.
  intros (dt & mt & yt & Hd & Hm & [Hy ->] & ->) Hv.
  unfold strptime.
  destruct (re_match_format dt mt y d m Hd Hm Hy) as (-> & -> & ->).
  rewrite int_pad4 by assumption.
  apply check_date_fields_valid in Hv. rewrite Hv. reflexivity.
Qed.

Lemma re_match_literal_inv a p' s r :
  re_match (Literal a :: p') s = Some r ->
  exists s', s = String a s' /\ re_match p' s' = Some r.
Proof.
  cbn [re_match]. destruct s as [|c s']; [discriminate|].
  destruct (Ascii.eqb_spec a c) as [->|_]; [|discriminate].
  intros H. exists s'. split; [reflexivity | exact H].
Qed.

Lemma re_match_group_inv alts p' s found rest :
  re_match (Group alts :: p') s = Some (found, rest) ->
  exists alt m s' gs,
    In alt alts /\ match_classes alt s = Some (m, s') /\
    found = m :: gs /\ re_match p' s' = Some (gs, rest).
Proof.
  rewrite re_match_group. intros H.
  apply match_alts_Some in H as (alt & m & s' & Hin & Hm & Hk).
  destruct (re_match p' s') as [[gs e]|] eqn:Hp; [|discriminate].
  injection Hk as <- <-. exists alt, m, s', gs. auto.
Qed.

Lemma re_match_format_inv s found rest :
  re_match format_regex s = Some (found, rest) ->
  exists dt mt yt,
    found = [dt; mt; yt] /\
    s = (dt ++ "-" ++ mt ++ "-" ++ yt ++ rest)%string /\
    day_text (int dt) dt /\ month_text (int mt) mt /\ year_text (int yt) yt.
Proof.
  unfold format_regex. intros H.
  apply re_match_group_inv in H as (a1 & dt & s1 & g1 & Hin1 & Hm1 & -> & H).
  apply re_match_literal_inv in H as (s2 & -> & H).
  apply re_match_group_inv in H as (a2 & mt & s3 & g2 & Hin2 & Hm2 & -> & H).
  apply re_match_literal_inv in H as (s4 & -> & H).
  apply re_match_group_inv in H as (a3 & yt & s5 & g3 & Hin3 & Hm3 & -> & H).
  cbn [re_match] in H. injection H as <- <-.
  destruct (re_d_sound _ _ _ _ Hin1 Hm1) as [-> Hd].
  destruct (re_m_sound _ _ _ _ Hin2 Hm2) as [-> Hm].
  destruct (re_Y_sound _ _ _ _ Hin3 Hm3) as [-> Hy].
  exists dt, mt, yt. split; [reflexivity|]. split; [reflexivity|]. auto.
Qed.

Lemma append_nil_r s : (s ++ EmptyString)%string = s.
Proof. induction s as [|c s IH]; [reflexivity|]. rewrite append_cons, IH. reflexivity. Qed.

Lemma strptime_sound s y m d :
  strptime s = Some (y, m, d) -> reads_as s y m d /\ valid_date y m d.
Proof.
  unfold strptime.
  destruct (re_match format_regex s) as [[found rest]|] eqn:Hre; [|discriminate].
  destruct rest; [|discriminate].
  apply re_match_format_inv in Hre as (dt & mt & yt & -> & -> & Hd & Hm & Hy).
  destruct (check_date_fields (int yt) (int mt) (int dt)) eqn:Hc; [|discriminate].
  intros [= <- <- <-]. apply check_date_fields_valid in Hc.
  split; [|exact Hc].
  exists dt, mt, yt. rewrite append_nil_r. auto.
Qed.

(** [strptime] accepts exactly the texts of the lenient form that name a
    date of the calendar. *)
Lemma strptime_Some_iff s y m d :
  strptime s = Some (y, m, d) <-> reads_as s y m d /\ valid_date y m d.
Proof.
  split; [apply strptime_sound | intros [H1 H2]; apply strptime_complete; assumption].
Qed.

Lemma sub_empty_not_digit s :
  Re.sub_empty (fun c => negb (Re.is_digit c)) s = digits_of s.
Proof.
  unfold digits_of. induction s as [|c s IH]; [reflexivity|].
  cbn [Re.sub_empty list_ascii_of_string List.filter].
  destruct (Re.is_digit c) eqn:Hc; cbn [negb]; rewrite IH; reflexivity.
Qed.

End DateFacts.

(** ** [parse_date_to_yyyymmdd] *)

Section ParseDate.

Import Datetime DateText.


Lemma parse_date_value (e : environment) date_str w :
  (parse_date_to_yyyymmdd e date_str w).2 =
  Ret match strptime date_str with
      | Some date_obj => strftime (libc_pads_year e) date_obj
      | None => digits_of date_str
      end.
Proof.
  unfold parse_date_to_yyyymmdd. destruct (strptime date_str); [reflexivity|].
  cbn. rewrite sub_empty_not_digit. reflexivity.
Qed.



(** Below year 1000 the result follows the platform's [%Y]: four digits
    where the C library pads, the plain decimal where it does not. *)
Example parse_date_year_below_1000 :
  forall e w,
    (parse_date_to_yyyymmdd e "10-10-0999" w).2 =
      Ret (if libc_pads_year e then "09991010" else "9991010").
Proof.
  intros e w. rewrite parse_date_value.
  replace (strptime "10-10-0999") with (Some (999, 10, 10)) by (vm_compute; reflexivity).
  destruct (libc_pads_year e); vm_compute; reflexivity.
Qed.

(** The dates of the specification's examples. *)
Example parse_date_examples :
  forall e w,
    (parse_date_to_yyyymmdd e "05-03-2024" w).2 = Ret "20240305"
    /\ (parse_date_to_yyyymmdd e "31-12-1999" w).2 = Ret "19991231"
    /\ (parse_date_to_yyyymmdd e "abc-12-xyz" w).2 = Ret "12"
    /\ (parse_date_to_yyyymmdd e "not-a-date" w).2 = Ret "".
Proof.
  intros e w. rewrite !parse_date_value.
  replace (strptime "05-03-2024") with (Some (2024, 3, 5)) by (vm_compute; reflexivity).
  replace (strptime "31-12-1999") with (Some (1999, 12, 31)) by (vm_compute; reflexivity).
  replace (strptime "abc-12-xyz") with (@None (nat * nat * nat)) by (vm_compute; reflexivity).
  replace (strptime "not-a-date") with (@None (nat * nat * nat)) by (vm_compute; reflexivity).
  unfold strftime, format_Y.
  destruct (libc_pads_year e); repeat split; vm_compute; reflexivity.
Qed.

End ParseDate.

(** ** What the methods write to the log *)

Section Effects.

Context (e : environment).

#[local] Arguments sanitize_filename : simpl never.
#[local] Arguments Datetime.strptime : simpl never.
#[local] Arguments Datetime.strftime : simpl never.
#[local] Arguments Path.suffix : simpl never.
#[local] Arguments Path.name : simpl never.
#[local] Arguments Path.parent : simpl never.
#[local] Arguments Path.truediv : simpl never.
#[local] Arguments Os.move : simpl never.
#[local] Arguments Re.sub_empty : simpl never.

Lemma processing_names_app l1 l2 :
  Log.processing_names (l1 ++ l2)
  = Log.processing_names l1 ++ Log.processing_names l2.
Proof. apply omap_app. Qed.

Lemma renamed_names_app l1 l2 :
  Log.renamed_names (l1 ++ l2) = Log.renamed_names l1 ++ Log.renamed_names l2.
Proof. apply omap_app. Qed.

Lemma interrupted_app l1 l2 :
  Log.interrupted (l1 ++ l2) = Log.interrupted l1 || Log.interrupted l2.
Proof. apply existsb_app. Qed.

Lemma quiet_app l1 l2 : Log.quiet l1 -> Log.quiet l2 -> Log.quiet (l1 ++ l2).
Proof.
  intros (P1 & R1 & I1) (P2 & R2 & I2). unfold Log.quiet.
  rewrite processing_names_app, renamed_names_app, interrupted_app.
  rewrite P1, P2, R1, R2, I1, I2. auto.
Qed.

(** Closes a goal [exists evs, log w' = log w ++ evs /\ ...] when [w'] is
    [w] after some calls of [logger]. *)
Ltac log_done :=
  first
    [ exists []; split; [symmetry; apply app_nil_r | repeat split; reflexivity]
    | eexists; split;
      [ cbn [log]; rewrite <- ?app_assoc; reflexivity
      | repeat split; reflexivity ] ].

Lemma parse_date_log date_str w w' r :
  parse_date_to_yyyymmdd e date_str w = (w', r) ->
  (exists v, r = Ret v) /\ fs w' = fs w
  /\ exists evs, log w' = log w ++ evs /\ Log.quiet evs.
Proof.
  unfold parse_date_to_yyyymmdd, bind, logger, ret.
  destruct (Datetime.strptime date_str); intros [= <- <-];
    (split; [eauto|]); (split; [reflexivity|]); log_done.
Qed.

Lemma generate_new_filename_log invoice original_path w w' r :
  generate_new_filename e invoice original_path w = (w', r) ->
  (exists v, r = Ret v) /\ fs w' = fs w
  /\ exists evs, log w' = log w ++ evs /\ Log.quiet evs.
Proof.
  unfold generate_new_filename, bind.
  destruct (parse_date_to_yyyymmdd e (issue_date invoice) w) as [w1 r1] eqn:Hp.
  apply parse_date_log in Hp as ([v ->] & Hfs & Hlog).
  unfold ret. intros [= <- <-]. eauto.
Qed.

Lemma extract_invoice_data_log filepath w w' r :
  extract_invoice_data e filepath w = (w', r) ->
  fs w' = fs w /\ exists evs, log w' = log w ++ evs /\ Log.quiet evs.
Proof.
  unfold extract_invoice_data, try_except, bind, read, logger, ret.
  destruct (Os.read_bytes w filepath) as [data|x].
  - destruct (generate_content e filepath data) as [response|x].
    + destruct (parse_invoice e response) as [invoice|x].
      * intros [= <- <-]. split; [reflexivity | log_done].
      * destruct x; cbn; intros [= <- <-]; (split; [reflexivity | log_done]).
    + destruct x; cbn; intros [= <- <-]; (split; [reflexivity | log_done]).
  - destruct x; cbn; intros [= <- <-]; (split; [reflexivity | log_done]).
Qed.

Lemma rename_file_log original_path new_filename w w' r :
  rename_file e original_path new_filename w = (w', r) ->
  exists evs,
    log w' = log w ++ evs /\
    Log.processing_names evs = [] /\ Log.interrupted evs = false /\
    Log.renamed_names evs =
      match r with Ret true => [Path.name original_path] | _ => [] end.
Proof.
  unfold rename_file, try_except, bind, read, logger, ret, Os.rename.
  destruct (Os.exists_ w _) as [[|]|x].
  - intros [= <- <-]. log_done.
  - destruct (os_rename_error e _ _) as [x|].
    + destruct x; cbn; intros [= <- <-]; log_done.
    + destruct (Os.stat w original_path) as [n|x].
      * destruct (interrupt_after_rename e _ _); cbn; intros [= <- <-]; log_done.
      * destruct x; cbn; intros [= <- <-]; log_done.
  - intros [= <- <-]. log_done.
Qed.

(** [rename_file] returns [True] only after the rename itself. *)
Lemma rename_file_true original_path new_filename w w' :
  rename_file e original_path new_filename w = (w', Ret true) ->
  let new_path := Path.truediv (Path.parent original_path) new_filename in
  Os.exists_ w new_path = Ret false /\
  fs w' = Os.move original_path new_path (fs w).
Proof.
  unfold rename_file, try_except, bind, read, logger, ret, Os.rename.
  destruct (Os.exists_ w _) as [[|]|x]; try discriminate.
  destruct (os_rename_error e _ _) as [x|].
  - destruct x; cbn; discriminate.
  - destruct (Os.stat w original_path) as [n|x].
    + destruct (interrupt_after_rename e _ _); cbn; [discriminate|].
      intros [= <-]. split; reflexivity.
    + destruct x; cbn; discriminate.
Qed.

Lemma process_file_log filepath w w' r :
  process_file e filepath w = (w', r) ->
  exists evs,
    log w' = log w ++ evs /\
    Log.processing_names evs = [Path.name filepath] /\
    Log.interrupted evs = false /\
    Log.renamed_names evs =
      match r with Ret true => [Path.name filepath] | _ => [] end.
Proof.
  unfold process_file. unfold bind at 1. unfold logger at 1.
  set (w1 := {| fs := fs w; log := log w ++ [(INFO, Processing (Path.name filepath))] |}).
  unfold bind at 1.
  destruct (extract_invoice_data e filepath w1) as [w2 [[invoice|]|x]] eqn:He;
    apply extract_invoice_data_log in He as (_ & evs2 & Hl2 & P2 & R2 & I2).
  - unfold bind.
    destruct (generate_new_filename e invoice filepath w2) as [w3 r3] eqn:Hg.
    apply generate_new_filename_log in Hg as ([v ->] & _ & evs3 & Hl3 & P3 & R3 & I3).
    intros Hr. apply rename_file_log in Hr as (evs4 & Hl4 & P4 & I4 & R4).
    exists ([(INFO, Processing (Path.name filepath))] ++ evs2 ++ evs3 ++ evs4).
    split; [rewrite Hl4, Hl3, Hl2; subst w1; cbn [log]; rewrite <- !app_assoc; reflexivity|].
    rewrite !processing_names_app, !renamed_names_app, !interrupted_app.
    rewrite P2, P3, P4, R2, R3, R4, I2, I3, I4. repeat split; reflexivity.
  - unfold ret. intros [= <- <-].
    exists ([(INFO, Processing (Path.name filepath))] ++ evs2).
    split; [rewrite Hl2; subst w1; cbn [log]; rewrite <- !app_assoc; reflexivity|].
    rewrite !processing_names_app, !renamed_names_app, !interrupted_app.
    rewrite P2, R2, I2. repeat split; reflexivity.
  - intros [= <- <-].
    exists ([(INFO, Processing (Path.name filepath))] ++ evs2).
    split; [rewrite Hl2; subst w1; cbn [log]; rewrite <- !app_assoc; reflexivity|].
    rewrite !processing_names_app, !renamed_names_app, !interrupted_app.
    rewrite P2, R2, I2. repeat split; reflexivity.
Qed.

End Effects.

(** ** The loop of [process_all_files] *)

Section Loop.

Context (e : environment).

Lemma sublist_same_length {A} (l1 l2 : list A) :
  l1 `sublist_of` l2 -> length l1 = length l2 -> l1 = l2.
Proof.
  induction 1 as [|x l1 l2 Hs IH|x l1 l2 Hs IH]; cbn [length]; intros Hl.
  - reflexivity.
  - f_equal. apply IH. lia.
  - apply sublist_length in Hs. lia.
Qed.

Lemma process_loop_cons pdf_file rest c w :
  process_loop e (pdf_file :: rest) c w =
  match process_file e pdf_file w with
  | (w', Ret true) => process_loop e rest (c + 1) w'
  | (w', Ret false) => process_loop e rest c w'
  | (w', Raise KeyboardInterrupt) => (after_interrupt w', Ret c)
  | (w', Raise x) => process_loop e rest c (after_unexpected pdf_file x w')
  end.
Proof.
  cbn [process_loop]. destruct (process_file e pdf_file w) as [w' [[|]|x]];
    try reflexivity. destruct x; reflexivity.
Qed.

Lemma process_loop_spec files c w :
  exists w' c' evs,
    process_loop e files c w = (w', Ret c') /\
    log w' = log w ++ evs /\
    c' = c + length (Log.renamed_names evs) /\
    Log.renamed_names evs `sublist_of` map Path.name files /\
    (Log.interrupted evs = false ->
     Log.processing_names evs = map Path.name files) /\
    (Log.interrupted evs = true ->
     length (Log.renamed_names evs) < length files).
Proof.
  revert c w. induction files as [|f rest IH]; intros c w.
  - exists w, c, []. cbn. rewrite app_nil_r.
    repeat split; auto; try discriminate; try constructor.
  - rewrite process_loop_cons.
    destruct (process_file e f w) as [w1 r] eqn:Hf.
    apply process_file_log in Hf as (evs1 & Hl1 & P1 & I1 & R1).
    assert (Hcont : forall c0 w2 evs2,
              log w2 = log w1 ++ evs2 -> Log.quiet evs2 ->
              c0 = c + length (Log.renamed_names evs1) ->
              exists w' c' evs,
                process_loop e rest c0 w2 = (w', Ret c') /\
                log w' = log w ++ evs /\
                c' = c + length (Log.renamed_names evs) /\
                Log.renamed_names evs `sublist_of` map Path.name (f :: rest) /\
                (Log.interrupted evs = false ->
                 Log.processing_names evs = map Path.name (f :: rest)) /\
                (Log.interrupted evs = true ->
                 length (Log.renamed_names evs) < length (f :: rest))).
    { intros c0 w2 evs2 Hl2 (P2 & R2 & I2) Hc0.
      destruct (IH c0 w2) as (w' & c' & evs & Hrun & Hl & Hc & Hsub & Hall & Hint).
      exists w', c', (evs1 ++ evs2 ++ evs).
      split; [exact Hrun|].
      split; [rewrite Hl, Hl2, Hl1, <- !app_assoc; reflexivity|].
      rewrite !renamed_names_app, !processing_names_app, !interrupted_app.
      rewrite R2, P2, I2, P1, I1. cbn [app orb]. rewrite !length_app.
      split; [lia|]. split.
      - destruct r as [[|]|x]; rewrite R1; cbn [app map];
          [apply sublist_skip | apply sublist_cons ..]; exact Hsub.
      - split.
        + intros Hi. rewrite (Hall Hi). reflexivity.
        + intros Hi. specialize (Hint Hi).
          pose proof (f_equal (@length string) R1) as HR.
          destruct r as [[|]|x]; cbn [length] in HR |- *; lia. }
    destruct r as [[|]|x].
    + apply (Hcont (c + 1) w1 []); [symmetry; apply app_nil_r | repeat split |].
      rewrite R1. reflexivity.
    + apply (Hcont c w1 []); [symmetry; apply app_nil_r | repeat split |].
      rewrite R1. cbn. lia.
    + assert (Hc0 : c = c + length (Log.renamed_names evs1))
        by (rewrite R1; cbn; lia).
      destruct x;
        try (match goal with
             | |- context [after_unexpected f ?x w1] =>
                 apply (Hcont c (after_unexpected f x w1)
                          [(ERROR, UnexpectedErrorProcessing (Path.name f) x)]);
                 [reflexivity | repeat split | exact Hc0]
             end).
      exists (after_interrupt w1), c, (evs1 ++ [(INFO, ProcessingInterrupted)]).
      split; [reflexivity|].
      split; [cbn [after_interrupt log]; rewrite Hl1, <- app_assoc; reflexivity|].
      rewrite !renamed_names_app, !processing_names_app, !interrupted_app.
      rewrite R1, I1. cbn. repeat split; try lia; try discriminate.
      apply sublist_nil_l.
Qed.

Lemma process_loop_app pre rest c w w1 c1 evs :
  process_loop e pre c w = (w1, Ret c1) ->
  log w1 = log w ++ evs -> Log.interrupted evs = false ->
  process_loop e (pre ++ rest) c w = process_loop e rest c1 w1.
Proof.
  revert c w evs. induction pre as [|f pre IH]; intros c w evs Hrun Hl Hi.
  - cbn in Hrun. injection Hrun as <- <-. reflexivity.
  - cbn [app]. rewrite process_loop_cons in Hrun |- *.
    destruct (process_file e f w) as [w2 r] eqn:Hf.
    apply process_file_log in Hf as (evs1 & Hl1 & _ & I1 & _).
    assert (Hcont : forall c0 w3 evs3,
              log w3 = log w2 ++ evs3 ->
              process_loop e pre c0 w3 = (w1, Ret c1) ->
              process_loop e (pre ++ rest) c0 w3 = process_loop e rest c1 w1).
    { intros c0 w3 evs3 Hl3 Hrun3.
      destruct (process_loop_spec pre c0 w3)
        as (w' & c' & evs4 & Hrun4 & Hl4 & _).
      rewrite Hrun3 in Hrun4. injection Hrun4 as <- <-.
      apply (IH c0 w3 evs4 Hrun3 Hl4).
      rewrite Hl4, Hl3, Hl1, <- !app_assoc in Hl.
      apply app_inv_head in Hl. subst evs.
      rewrite !interrupted_app in Hi.
      apply orb_false_iff in Hi as [_ Hi]. apply orb_false_iff in Hi as [_ Hi].
      exact Hi. }
    destruct r as [[|]|x].
    + apply (Hcont _ w2 []); [symmetry; apply app_nil_r | exact Hrun].
    + apply (Hcont _ w2 []); [symmetry; apply app_nil_r | exact Hrun].
    + destruct x;
        try (match goal with
             | |- context [after_unexpected f ?x w2] =>
                 apply (Hcont c (after_unexpected f x w2)
                          [(ERROR, UnexpectedErrorProcessing (Path.name f) x)]);
                 [reflexivity | exact Hrun]
             end).
      exfalso. injection Hrun as <- <-.
      cbn [after_interrupt log] in Hl. rewrite Hl1, <- app_assoc in Hl.
      apply app_inv_head in Hl. subst evs.
      rewrite interrupted_app in Hi. cbn in Hi.
      rewrite orb_true_r in Hi. discriminate.
Qed.

End Loop.

(** ** The claims about files and batches *)

Section Claims.

#[local] Arguments sanitize_filename : simpl never.
#[local] Arguments Datetime.strptime : simpl never.
#[local] Arguments Datetime.strftime : simpl never.

(** C3: the new file name is the sanitized company name, an underscore,
    the sanitized description, an underscore, the value of
    [parse_date_to_yyyymmdd] on the issue date, and the suffix of the
    original path; for Acme Corp, subscription, 05-03-2024 and a path
    with suffix [.pdf] it is [Acme_Corp_subscription_20240305.pdf]. *)
Theorem generate_new_filename_composition (e : environment)
    (invoice : Invoice) (original_path : path) (w : world) :
  (exists date,
     (parse_date_to_yyyymmdd e (issue_date invoice) w).2 = Ret date /\
     (generate_new_filename e invoice original_path w).2 =
       Ret (sanitize_filename (company_name invoice) ++ "_"
            ++ sanitize_filename (description invoice) ++ "_"
            ++ date ++ Path.suffix original_path)%string)
  /\ (Path.suffix original_path = ".pdf" ->
      (generate_new_filename e Sample.acme original_path w).2 =
        Ret "Acme_Corp_subscription_20240305.pdf").
Proof.
  split.
  - unfold generate_new_filename, bind.
    destruct (parse_date_to_yyyymmdd e (issue_date invoice) w) as [w1 r] eqn:Hp.
    destruct (parse_date_log e _ _ _ _ Hp) as ([date ->] & _).
    exists date. split; reflexivity.
  - intros Hs. unfold generate_new_filename, bind.
    destruct (parse_date_to_yyyymmdd e (issue_date Sample.acme) w)
      as [w1 r] eqn:Hp.
    pose proof (parse_date_examples e w) as (Hd & _).
    change (issue_date Sample.acme) with "05-03-2024" in Hp.
    rewrite Hp in Hd. cbn [snd] in Hd. subst r.
    cbn [ret snd]. rewrite Hs. vm_compute. reflexivity.
Qed.

(** C1: when there is a file or a directory at the destination, the
    parent of the source joined with the new name, [rename_file] returns
    [False] and renames nothing: the file system is the one before, so
    the source and the destination are as they were. *)
Theorem rename_file_never_overwrites (e : environment) (original_path : path)
    (new_filename : string) (w : world) :
  holds_entry w (Path.truediv (Path.parent original_path) new_filename) = true ->
  exists w',
    rename_file e original_path new_filename w = (w', Ret false) /\
    fs w' = fs w /\
    fs w' !! original_path = fs w !! original_path /\
    fs w' !! Path.truediv (Path.parent original_path) new_filename
      = fs w !! Path.truediv (Path.parent original_path) new_filename /\
    log w' = log w ++ [(WARNING, TargetExists new_filename)].
Proof.
  unfold holds_entry, rename_file, bind, read, Os.exists_, Os.stat_test, Os.stat.
  destruct (fs w !! Path.truediv (Path.parent original_path) new_filename)
    as [[content|listable|x]|] eqn:Hd; try discriminate; intros _;
    (eexists; split; [reflexivity|]); cbn [fs log]; rewrite ?Hd; auto.
Qed.

(** C8: when nothing is at the target path, or a regular file is, the
    batch returns zero successes of zero files, the file system is
    untouched, and the one message logged is the validation error: no
    file was listed or processed. *)
Theorem invalid_folder_aborts (e : environment) (folder : path) (w : world) :
  fs w !! folder = None \/ (exists content, fs w !! folder = Some (File content)) ->
  exists w' m,
    process_all_files e folder w = (w', Ret (0, 0)) /\
    fs w' = fs w /\
    log w' = log w ++ [(ERROR, m)] /\
    (m = FolderDoesNotExist folder \/ m = PathIsNotADirectory folder).
Proof.
  unfold process_all_files, validate_folder, bind, read, logger, ret.
  unfold Os.exists_, Os.is_dir, Os.stat_test, Os.stat.
  intros [H|[content H]]; rewrite H; cbn; rewrite ?H; cbn;
    eexists _, _; (split; [reflexivity|]); cbn [fs log]; auto.
Qed.

End Claims.

Section Batch.

Context (e : environment) (folder : path).

Lemma validate_folder_dir w b :
  fs w !! folder = Some (Dir b) -> validate_folder folder w = (w, Ret true).
Proof.
  intros H. unfold validate_folder, bind, read, logger, ret.
  unfold Os.exists_, Os.is_dir, Os.stat_test, Os.stat.
  rewrite H. cbn. rewrite H. reflexivity.
Qed.

Lemma get_pdf_files_denied w :
  pdf_listing folder w = Raise PermissionError ->
  get_pdf_files folder w =
    ({| fs := fs w; log := log w ++ [(ERROR, PermissionDenied folder)] |}, Ret []).
Proof.
  intros H. unfold get_pdf_files, try_except, bind, read. rewrite H. reflexivity.
Qed.

Lemma get_pdf_files_listed w pdf_files :
  pdf_listing folder w = Ret pdf_files ->
  get_pdf_files folder w =
    ({| fs := fs w;
        log := log w ++ [(INFO, FoundPdfFiles (length pdf_files) folder)] |},
     Ret pdf_files).
Proof.
  intros H. unfold get_pdf_files, try_except, bind, read. rewrite H. reflexivity.
Qed.

Lemma exit_code_cases w :
  exit_code e folder w =
  match client_error e with
  | Some _ => 1
  | None =>
      match (process_all_files e folder w).2 with
      | Ret (successful, total) =>
          if (total =? 0)%nat then 1
          else if (successful =? total)%nat then 0 else 1
      | Raise _ => 1
      end
  end.
Proof.
  unfold exit_code, main, try_except, bind, raise, ret, logger.
  destruct (client_error e) as [x|].
  - destruct x; reflexivity.
  - destruct (process_all_files e folder w) as [w1 [[successful total]|x]].
    + cbn [snd]. destruct (total =? 0)%nat; [reflexivity|].
      destruct (successful =? total)%nat; reflexivity.
    + destruct x; reflexivity.
Qed.

Lemma process_all_files_eq w :
  process_all_files e folder w =
  match validate_folder folder w with
  | (wv, Ret true) =>
      match get_pdf_files folder wv with
      | (w0, Ret []) =>
          ({| fs := fs w0; log := log w0 ++ [(WARNING, NoPdfFilesFound)] |},
           Ret (0, 0))
      | (w0, Ret pdf_files) =>
          match process_loop e pdf_files 0 w0 with
          | (w', Ret n) => (w', Ret (n, length pdf_files))
          | (w', Raise x) => (w', Raise x)
          end
      | (w0, Raise x) => (w0, Raise x)
      end
  | (wv, Ret false) => (wv, Ret (0, 0))
  | (wv, Raise x) => (wv, Raise x)
  end.
Proof.
  unfold process_all_files. unfold bind at 1.
  destruct (validate_folder folder w) as [wv [[|]|x]]; try reflexivity.
  cbn [negb]. unfold bind at 1.
  destruct (get_pdf_files folder wv) as [w0 [[|f rest]|x]]; reflexivity.
Qed.

Lemma process_all_files_cases w :
  (exists wv w0 files w' n,
     validate_folder folder w = (wv, Ret true) /\
     get_pdf_files folder wv = (w0, Ret files) /\ files <> [] /\
     process_loop e files 0 w0 = (w', Ret n) /\
     process_all_files e folder w = (w', Ret (n, length files)))
  \/ ((forall wv w0 files,
         validate_folder folder w = (wv, Ret true) ->
         get_pdf_files folder wv = (w0, Ret files) -> files = []) /\
      ((process_all_files e folder w).2 = Ret (0, 0)
       \/ exists x, (process_all_files e folder w).2 = Raise x)).
Proof.
  rewrite process_all_files_eq.
  destruct (validate_folder folder w) as [wv [[|]|x]] eqn:Hv.
  - destruct (get_pdf_files folder wv) as [w0 [files|x]] eqn:Hg.
    + destruct files as [|f rest].
      * right. split; [|left; reflexivity].
        intros wv' w0' files' [= <-]. rewrite Hg. intros [= _ <-]. reflexivity.
      * left. destruct (process_loop_spec e (f :: rest) 0 w0)
          as (w' & n & evs & Hrun & _).
        exists wv, w0, (f :: rest), w', n.
        rewrite Hrun. repeat split; auto.
    + right. split; [|right; exists x; reflexivity].
      intros wv' w0' files' [= <-]. rewrite Hg. discriminate.
  - right. split; [|left; reflexivity]. intros wv' w0' files'. discriminate.
  - right. split; [|right; exists x; reflexivity].
    intros wv' w0' files'. discriminate.
Qed.

End Batch.

Section BatchClaims.

(** C10: when the target is a directory and listing it raises
    [PermissionError], the batch returns zero successes of zero files and
    the exit status is 1; a run on a directory whose listing holds no
    document returns the same value and ends with the same status. *)
Theorem permission_error_reads_as_empty (e : environment) (folder : path)
    (w : world) (b : bool) :
  fs w !! folder = Some (Dir b) ->
  pdf_listing folder w = Raise PermissionError ->
  (process_all_files e folder w).2 = Ret (0, 0)
  /\ exit_code e folder w = 1
  /\ (forall w0 b0,
        fs w0 !! folder = Some (Dir b0) ->
        pdf_listing folder w0 = Ret [] ->
        (process_all_files e folder w0).2 = (process_all_files e folder w).2
        /\ exit_code e folder w0 = exit_code e folder w).
Proof.
  intros Hd Hl.
  assert (Hw : (process_all_files e folder w).2 = Ret (0, 0)).
  { rewrite process_all_files_eq, (validate_folder_dir _ _ _ Hd).
    rewrite (get_pdf_files_denied _ _ Hl). reflexivity. }
  assert (He : exit_code e folder w = 1).
  { rewrite exit_code_cases, Hw. destruct (client_error e); reflexivity. }
  split; [exact Hw|]. split; [exact He|].
  intros w0 b0 Hd0 Hl0.
  assert (Hw0 : (process_all_files e folder w0).2 = Ret (0, 0)).
  { rewrite process_all_files_eq, (validate_folder_dir _ _ _ Hd0).
    rewrite (get_pdf_files_listed _ _ _ Hl0). reflexivity. }
  split; [rewrite Hw0, Hw; reflexivity|].
  rewrite He, exit_code_cases, Hw0. destruct (client_error e); reflexivity.
Qed.

(** C7: the loop over the documents always returns; it raises nothing.
    Its count is the count it started with plus the number of files
    renamed, at most one per file.  Unless the user interrupts, the
    processing of every file of the list is started, in the order of the
    list.  And when [process_file] returns [False] on a file or raises an
    [Exception], the loop goes on with the files after it, its count
    unchanged. *)
Theorem batch_isolation (e : environment) (files : list path) (c : nat)
    (w : world) :
  (exists w' c' evs,
     process_loop e files c w = (w', Ret c') /\
     log w' = log w ++ evs /\
     c' = c + length (Log.renamed_names evs) /\
     c' <= c + length files /\
     (Log.interrupted evs = false ->
      Log.processing_names evs = map Path.name files))
  /\ (forall f rest w1 r,
        files = f :: rest ->
        process_file e f w = (w1, r) ->
        r = Ret false \/ (exists x, r = Raise x /\ is_Exception x = true) ->
        exists w2 evs2,
          fs w2 = fs w1 /\ log w2 = log w1 ++ evs2 /\ Log.quiet evs2 /\
          process_loop e files c w = process_loop e rest c w2).
Proof.
  split.
  - destruct (process_loop_spec e files c w)
      as (w' & c' & evs & Hrun & Hl & Hc & Hsub & Hall & _).
    exists w', c', evs. repeat split; auto.
    apply sublist_length in Hsub. rewrite length_map in Hsub. lia.
  - intros f rest w1 r -> Hf Hr. rewrite process_loop_cons, Hf.
    destruct Hr as [->|(x & -> & Hx)].
    + exists w1, []. rewrite app_nil_r. repeat split; reflexivity.
    + exists (after_unexpected f x w1),
        [(ERROR, UnexpectedErrorProcessing (Path.name f) x)].
      destruct x; try discriminate Hx; repeat split; reflexivity.
Qed.

(** C9: when the files before [f] are processed without interruption,
    leaving [c1] successes, and the user interrupts during [f], the batch
    ends in the world that the interrupted [process_file] left, with one
    more message, the notice of the interruption: none of the files after
    [f] is processed.  The batch returns [c1] successes of all the files
    listed. *)
Theorem cancellation_stops_batch (e : environment) (folder : path)
    (pre : list path) (f : path) (post : list path)
    (w wv w0 w1 w2 : world) (c1 : nat) (evs : list (level * message)) :
  validate_folder folder w = (wv, Ret true) ->
  get_pdf_files folder wv = (w0, Ret (pre ++ f :: post)) ->
  process_loop e pre 0 w0 = (w1, Ret c1) ->
  log w1 = log w0 ++ evs ->
  Log.interrupted evs = false ->
  process_file e f w1 = (w2, Raise KeyboardInterrupt) ->
  process_loop e (pre ++ f :: post) 0 w0 = (after_interrupt w2, Ret c1)
  /\ process_all_files e folder w
     = (after_interrupt w2, Ret (c1, length (pre ++ f :: post)))
  /\ exit_code e folder w = 1.
Proof.
  intros Hv Hg Hpre Hl Hi Hf.
  assert (Hrun : process_loop e (pre ++ f :: post) 0 w0
                 = (after_interrupt w2, Ret c1)).
  { rewrite (process_loop_app e pre (f :: post) 0 w0 w1 c1 evs Hpre Hl Hi).
    rewrite process_loop_cons, Hf. reflexivity. }
  assert (Hall : process_all_files e folder w
                 = (after_interrupt w2, Ret (c1, length (pre ++ f :: post)))).
  { rewrite process_all_files_eq, Hv, Hg, Hrun.
    destruct (pre ++ f :: post) eqn:E; [|reflexivity].
    destruct pre; discriminate E. }
  split; [exact Hrun|]. split; [exact Hall|].
  rewrite exit_code_cases, Hall. destruct (client_error e); [reflexivity|].
  cbn [snd].
  destruct (process_loop_spec e pre 0 w0)
    as (w1' & c1' & evs' & Hrun' & Hl' & Hc' & Hsub & _).
  rewrite Hpre in Hrun'. injection Hrun' as <- <-.
  apply sublist_length in Hsub. rewrite length_map in Hsub.
  rewrite length_app. cbn [length].
  destruct (Nat.eqb_spec (length pre + S (length post)) 0) as [E|_]; [reflexivity|].
  destruct (Nat.eqb_spec c1 (length pre + S (length post))) as [E|_]; [lia|reflexivity].
Qed.

(** C2: the exit status is 0 exactly when the run gets to a list of
    documents, the list is not empty, and the loop logs the renaming of
    every document of the list.  The status is otherwise 1: in
    particular when the batch reports zero files, when the processor
    cannot be built or the batch raises, and when the user interrupts
    the loop. *)
Theorem exit_code_contract (e : environment) (folder : path) (w : world) :
  (exit_code e folder w = 0 <->
   exists w0 files,
     discovers e folder w w0 files /\ files <> [] /\ all_renamed e files w0)
  /\ (exit_code e folder w = 0 \/ exit_code e folder w = 1)
  /\ (forall successful,
        (process_all_files e folder w).2 = Ret (successful, 0) ->
        exit_code e folder w = 1)
  /\ (forall x,
        client_error e = Some x \/ (process_all_files e folder w).2 = Raise x ->
        exit_code e folder w = 1)
  /\ (forall w0 files w' n evs,
        discovers e folder w w0 files ->
        process_loop e files 0 w0 = (w', Ret n) ->
        log w' = log w0 ++ evs ->
        Log.interrupted evs = true \/
        Log.renamed_names evs <> map Path.name files ->
        exit_code e folder w = 1).
Proof.
  assert (Hiff : exit_code e folder w = 0 <->
            exists w0 files,
              discovers e folder w w0 files /\ files <> [] /\
              all_renamed e files w0).
  { rewrite exit_code_cases. split.
    - destruct (client_error e) as [x|] eqn:Hce; [discriminate|].
      destruct (process_all_files_cases e folder w)
        as [(wv & w0 & files & w' & n & Hv & Hg & Hne & Hrun & Hall)
           |[_ [Hz|[x Hx]]]].
      + rewrite Hall. cbn [snd].
        destruct (Nat.eqb_spec (length files) 0) as [_|_]; [discriminate|].
        destruct (Nat.eqb_spec n (length files)) as [Hn|_]; [|discriminate].
        intros _. exists w0, files. split; [|split; [exact Hne|]].
        * split; [exact Hce|]. exists wv. auto.
        * destruct (process_loop_spec e files 0 w0)
            as (w'' & n' & evs & Hrun' & Hl & Hc & Hsub & _).
          rewrite Hrun in Hrun'. injection Hrun' as <- <-.
          exists w', n, evs. repeat split; auto.
          apply sublist_same_length; [exact Hsub|].
          rewrite length_map. lia.
      + rewrite Hz. discriminate.
      + rewrite Hx. discriminate.
    - intros (w0 & files & (Hce & wv & Hv & Hg) & Hne & w' & n & evs & Hrun & Hl & Hr).
      rewrite Hce.
      destruct (process_all_files_cases e folder w)
        as [(wv' & w0' & files' & w'' & n' & Hv' & Hg' & Hne' & Hrun' & Hall)
           |[Hnone _]].
      + rewrite Hv in Hv'. injection Hv' as <-.
        rewrite Hg in Hg'. injection Hg' as <- <-.
        rewrite Hrun in Hrun'. injection Hrun' as <- <-.
        rewrite Hall. cbn [snd].
        destruct (process_loop_spec e files 0 w0)
          as (w2 & n2 & evs2 & Hrun2 & Hl2 & Hc2 & _).
        rewrite Hrun in Hrun2. injection Hrun2 as <- <-.
        rewrite Hl in Hl2. apply app_inv_head in Hl2. subst evs2.
        rewrite Hr, length_map in Hc2. cbn in Hc2. subst n.
        destruct files; [congruence|]. cbn [length Nat.eqb].
        rewrite Nat.eqb_refl. reflexivity.
      + exfalso. apply Hne. apply (Hnone wv w0 files Hv Hg). }
  assert (H01 : exit_code e folder w = 0 \/ exit_code e folder w = 1).
  { rewrite exit_code_cases. destruct (client_error e); [auto|].
    destruct (process_all_files e folder w).2 as [[s t]|x]; [|auto].
    destruct (t =? 0)%nat; [auto|]. destruct (s =? t)%nat; auto. }
  split; [exact Hiff|]. split; [exact H01|]. split; [|split].
  - intros successful H. rewrite exit_code_cases, H.
    destruct (client_error e); reflexivity.
  - intros x [H|H]; rewrite exit_code_cases, ?H;
      destruct (client_error e); congruence.
  - intros w0 files w' n evs Hdisc Hrun Hl Hbad.
    destruct H01 as [H0|H1]; [|exact H1]. exfalso.
    apply Hiff in H0 as (w0' & files' & (_ & wv' & Hv' & Hg') & _
                          & w2 & n2 & evs2 & Hrun2 & Hl2 & Hr2).
    destruct Hdisc as (_ & wv & Hv & Hg).
    rewrite Hv in Hv'. injection Hv' as <-.
    rewrite Hg in Hg'. injection Hg' as <- <-.
    rewrite Hrun in Hrun2. injection Hrun2 as <- <-.
    rewrite Hl in Hl2. apply app_inv_head in Hl2. subst evs2.
    destruct Hbad as [Hi|Hn]; [|congruence].
    destruct (process_loop_spec e files 0 w0)
      as (w3 & n3 & evs3 & Hrun3 & Hl3 & _ & _ & _ & Hint).
    rewrite Hrun in Hrun3. injection Hrun3 as <- <-.
    rewrite Hl in Hl3. apply app_inv_head in Hl3. subst evs3.
    specialize (Hint Hi). rewrite Hr2, length_map in Hint. lia.
Qed.

End BatchClaims.

(** ** The theorems at work on the sample run *)

Section Witnesses.

Import Sample.

(** Renaming [a.pdf] to the name of its neighbour [c.pdf] is refused. *)
Lemma rename_file_never_overwrites_witness :
  holds_entry w0 (Path.truediv (Path.parent (folder ++ ["a.pdf"])) "c.pdf") = true
  /\ exists w',
       rename_file env (folder ++ ["a.pdf"]) "c.pdf" w0 = (w', Ret false) /\
       fs w' = fs w0 /\
       fs w' !! (folder ++ ["a.pdf"]) = fs w0 !! (folder ++ ["a.pdf"]) /\
       fs w' !! Path.truediv (Path.parent (folder ++ ["a.pdf"])) "c.pdf"
         = fs w0 !! Path.truediv (Path.parent (folder ++ ["a.pdf"])) "c.pdf" /\
       log w' = log w0 ++ [(WARNING, TargetExists "c.pdf")].
Proof.
  split; [vm_compute; reflexivity|].
  apply (rename_file_never_overwrites env (folder ++ ["a.pdf"]) "c.pdf" w0).
  vm_compute; reflexivity.
Defined.

(** There is no [/missing]. *)
Lemma invalid_folder_aborts_witness :
  (fs w0 !! ["/"; "missing"] = None
   \/ exists content, fs w0 !! ["/"; "missing"] = Some (File content))
  /\ exists w' m,
       process_all_files env ["/"; "missing"] w0 = (w', Ret (0, 0)) /\
       fs w' = fs w0 /\
       log w' = log w0 ++ [(ERROR, m)] /\
       (m = FolderDoesNotExist ["/"; "missing"]
        \/ m = PathIsNotADirectory ["/"; "missing"]).
Proof.
  assert (H : fs w0 !! ["/"; "missing"] = None
              \/ exists content, fs w0 !! ["/"; "missing"] = Some (File content))
    by (left; vm_compute; reflexivity).
  split; [exact H|].
  apply (invalid_folder_aborts env ["/"; "missing"] w0 H).
Defined.

(** [/locked] is a directory that refuses to be listed. *)
Lemma permission_error_reads_as_empty_witness :
  fs w0 !! ["/"; "locked"] = Some (Dir false)
  /\ pdf_listing ["/"; "locked"] w0 = Raise PermissionError
  /\ (process_all_files env ["/"; "locked"] w0).2 = Ret (0, 0)
  /\ exit_code env ["/"; "locked"] w0 = 1.
Proof.
  assert (Hd : fs w0 !! ["/"; "locked"] = Some (Dir false))
    by (vm_compute; reflexivity).
  assert (Hl : pdf_listing ["/"; "locked"] w0 = Raise PermissionError)
    by (vm_compute; reflexivity).
  split; [exact Hd|]. split; [exact Hl|].
  destruct (permission_error_reads_as_empty env ["/"; "locked"] w0 false Hd Hl)
    as (H1 & H2 & _).
  split; assumption.
Defined.

(** The user interrupts during [a.pdf], the second of three documents:
    one success of three files is reported and [b.PDF] is not processed. *)
Lemma cancellation_stops_batch_witness :
  let listed := (get_pdf_files folder w0).1 in
  let w1 := (process_loop env_interrupted [folder ++ ["c.pdf"]] 0 listed).1 in
  let w2 := (process_file env_interrupted (folder ++ ["a.pdf"]) w1).1 in
  process_file env_interrupted (folder ++ ["a.pdf"]) w1
    = (w2, Raise KeyboardInterrupt)
  /\ process_all_files env_interrupted folder w0
     = (after_interrupt w2, Ret (1, 3))
  /\ Log.processing_names (log (after_interrupt w2)) = ["c.pdf"; "a.pdf"]
  /\ exit_code env_interrupted folder w0 = 1.
Proof.
  intros listed w1 w2.
  assert (Hf : process_file env_interrupted (folder ++ ["a.pdf"]) w1
               = (w2, Raise KeyboardInterrupt)) by (vm_compute; reflexivity).
  split; [exact Hf|].
  assert (Hv : validate_folder folder w0 = (w0, Ret true))
    by (vm_compute; reflexivity).
  assert (Hg : get_pdf_files folder w0
               = (listed, Ret ([folder ++ ["c.pdf"]] ++ (folder ++ ["a.pdf"])
                                 :: [folder ++ ["b.PDF"]])))
    by (vm_compute; reflexivity).
  assert (Hpre : process_loop env_interrupted [folder ++ ["c.pdf"]] 0 listed
                 = (w1, Ret 1)) by (vm_compute; reflexivity).
  assert (Hl : log w1 = log listed
                 ++ [ (INFO, Processing "c.pdf");
                      (DEBUG, ApiResponse "c.pdf" "beta.json");
                      (INFO, Renamed "c.pdf" "Beta_Ltd_course_20240305.pdf") ])
    by (vm_compute; reflexivity).
  destruct (cancellation_stops_batch env_interrupted folder
              [folder ++ ["c.pdf"]] (folder ++ ["a.pdf"]) [folder ++ ["b.PDF"]]
              w0 w0 listed w1 w2 1 _ Hv Hg Hpre Hl eq_refl Hf)
    as (_ & Hall & Hexit).
  split; [exact Hall|]. split; [vm_compute; reflexivity | exact Hexit].
Defined.

(** [a.pdf] has the suffix of the example. *)
Lemma generate_new_filename_composition_witness :
  Path.suffix (folder ++ ["a.pdf"]) = ".pdf"
  /\ (generate_new_filename env acme (folder ++ ["a.pdf"]) w0).2 =
       Ret "Acme_Corp_subscription_20240305.pdf".
Proof.
  assert (H : Path.suffix (folder ++ ["a.pdf"]) = ".pdf")
    by (vm_compute; reflexivity).
  split; [exact H|].
  exact (proj2 (generate_new_filename_composition env acme
                  (folder ++ ["a.pdf"]) w0) H).
Defined.


(** The service fails on [b.PDF]; the loop goes on with [a.pdf]. *)
Lemma batch_isolation_witness :
  let r := process_file env (folder ++ ["b.PDF"]) w0 in
  r.2 = Ret false
  /\ exists w2 evs2,
       fs w2 = fs r.1 /\ log w2 = log r.1 ++ evs2 /\ Log.quiet evs2 /\
       process_loop env [folder ++ ["b.PDF"]; folder ++ ["a.pdf"]] 0 w0
       = process_loop env [folder ++ ["a.pdf"]] 0 w2.
Proof.
  intros r. split; [vm_compute; reflexivity|].
  apply (proj2 (batch_isolation env
                  [folder ++ ["b.PDF"]; folder ++ ["a.pdf"]] 0 w0)
           (folder ++ ["b.PDF"]) [folder ++ ["a.pdf"]] r.1 (Ret false)).
  - reflexivity.
  - vm_compute; reflexivity.
  - left; reflexivity.
Defined.

(** With a service that reads all three documents the status is 0, and
    so every document listed was renamed. *)
Lemma exit_code_contract_witness :
  exit_code env_ok folder w0 = 0
  /\ exists w1 files,
       discovers env_ok folder w0 w1 files /\ files <> [] /\
       all_renamed env_ok files w1.
Proof.
  assert (H : exit_code env_ok folder w0 = 0) by (vm_compute; reflexivity).
  split; [exact H|].
  exact (proj1 (proj1 (exit_code_contract env_ok folder w0)) H).
Defined.

(** A rename that succeeds moves the entry: the old path is free and the
    content is at the new one. *)
Example rename_file_moves :
  let r := rename_file env (folder ++ ["a.pdf"]) "x.pdf" w0 in
  r.2 = Ret true
  /\ fs r.1 !! (folder ++ ["a.pdf"]) = None
  /\ fs r.1 !! (folder ++ ["x.pdf"]) = Some (File "A")
  /\ fs r.1 !! (folder ++ ["c.pdf"]) = Some (File "C").
Proof. vm_compute. repeat split; reflexivity. Qed.

(** The scenario of the specification: three documents, the service
    fails on one; two of three are renamed and the status is 1.  With a
    service that reads all three, the status is 0. *)
Example end_to_end :
  (process_all_files env folder w0).2 = Ret (2, 3)
  /\ exit_code env folder w0 = 1
  /\ (process_all_files env_ok folder w0).2 = Ret (3, 3)
  /\ exit_code env_ok folder w0 = 0.
Proof. vm_compute. repeat split; reflexivity. Qed.

(** A failure of extraction on the first file and an [OSError] out of
    [process_file] on the second do not keep the third from being
    renamed. *)
Example failures_do_not_stop_the_loop :
  let r := process_loop env
             [folder ++ ["b.PDF"]; folder ++ ["a.pdf"]; folder ++ ["c.pdf"]]
             0 w_fault in
  r.2 = Ret 1
  /\ (process_file env (folder ++ ["a.pdf"]) w_fault).2 = Raise OSError
  /\ log r.1 =
       [ (INFO, Processing "b.PDF");
         (ERROR, ErrorExtracting "b.PDF" APIError);
         (INFO, Processing "a.pdf");
         (DEBUG, ApiResponse "a.pdf" "acme.json");
         (ERROR, UnexpectedErrorProcessing "a.pdf" OSError);
         (INFO, Processing "c.pdf");
         (DEBUG, ApiResponse "c.pdf" "beta.json");
         (INFO, Renamed "c.pdf" "Beta_Ltd_course_20240305.pdf") ].
Proof. vm_compute. repeat split; reflexivity. Qed.

End Witnesses.

(** * Further properties of the processor *)

(** ** The file system after a rename *)

Section MoveFacts.

Context (src dst : path).

Lemma reroot_prefixed s : Os.reroot src dst (src ++ s) = dst ++ s.
Proof.
  unfold Os.reroot. rewrite bool_decide_eq_true_2 by (by exists s).
  by rewrite drop_app_length.
Qed.

Lemma foldr_insert_other (f : path -> path) (l : list (path * entry))
    (base : gmap path entry) q :
  (forall kv, kv ∈ l -> f kv.1 <> q) ->
  foldr (fun kv acc => <[f kv.1 := kv.2]> acc) base l !! q = base !! q.
Proof.
  induction l as [|kv l IH]; intros H; [reflexivity|]. cbn [foldr].
  rewrite lookup_insert_ne by (apply H; left).
  apply IH. intros kv' Hin. apply H. by right.
Qed.

Lemma foldr_insert_here (f : path -> path) (l : list (path * entry))
    (base : gmap path entry) k v :
  NoDup ((fun kv => f kv.1) <$> l) -> (k, v) ∈ l ->
  foldr (fun kv acc => <[f kv.1 := kv.2]> acc) base l !! f k = Some v.
Proof.
  induction l as [|kv l IH]; intros Hnd Hin; [by apply elem_of_nil in Hin|].
  cbn [foldr]. apply NoDup_cons in Hnd as [Hhd Hnd].
  apply elem_of_cons in Hin as [<-|Hin].
  - apply lookup_insert_eq.
  - rewrite lookup_insert_ne; [by apply IH|].
    intros E. apply Hhd. apply list_elem_of_fmap. exists (k, v). by split.
Qed.

Lemma moved_elem (m : gmap path entry) k v :
  (k, v) ∈ filter (fun kv : path * entry => src `prefix_of` kv.1) (map_to_list m)
  <-> m !! k = Some v /\ src `prefix_of` k.
Proof.
  split.
  - intros H. apply list_elem_of_filter in H as [Hp Hin].
    apply elem_of_map_to_list in Hin. by split.
  - intros [Hm Hp]. apply list_elem_of_filter. split; [exact Hp|].
    by apply elem_of_map_to_list.
Qed.

Lemma moved_NoDup (m : gmap path entry) :
  NoDup ((fun kv : path * entry => Os.reroot src dst kv.1)
           <$> filter (fun kv : path * entry => src `prefix_of` kv.1)
                 (map_to_list m)).
Proof.
  apply NoDup_fmap_2_strong.
  - intros [k1 v1] [k2 v2] H1 H2 E. cbn in E.
    apply moved_elem in H1 as [L1 [s1 ->]]. apply moved_elem in H2 as [L2 [s2 ->]].
    rewrite !reroot_prefixed in E. apply app_inv_head in E. subst s2.
    rewrite L1 in L2. by injection L2 as ->.
  - apply NoDup_filter, NoDup_map_to_list.
Qed.

(** What is at a path after [src] was renamed to [dst]: below [dst],
    what was below [src]; elsewhere nothing where [src] was, and what was
    there before at any other path. *)
Lemma move_lookup (m : gmap path entry) q :
  Os.move src dst m !! q =
  if decide (dst `prefix_of` q) then m !! (src ++ drop (length dst) q)
  else if decide (src `prefix_of` q) then None
  else m !! q.
Proof.
  unfold Os.move. destruct (decide (dst `prefix_of` q)) as [[s ->]|Hd].
  - rewrite drop_app_length.
    destruct (m !! (src ++ s)) as [v|] eqn:Hm.
    + rewrite <- (reroot_prefixed s).
      apply (foldr_insert_here (Os.reroot src dst)); [apply moved_NoDup|].
      apply moved_elem. split; [exact Hm | by exists s].
    + rewrite foldr_insert_other.
      * apply map_lookup_filter_None. right. intros v _ [_ H]. cbn in H.
        apply H. by exists s.
      * intros [k v] Hin E. cbn in E. apply moved_elem in Hin as [L [s' ->]].
        rewrite reroot_prefixed in E. apply app_inv_head in E. subst s'.
        rewrite Hm in L. discriminate.
  - rewrite foldr_insert_other.
    + destruct (decide (src `prefix_of` q)) as [Hs|Hs].
      * apply map_lookup_filter_None. right. intros v _ [H _]. by apply H.
      * destruct (m !! q) as [v|] eqn:Hm.
        -- apply map_lookup_filter_Some. by repeat split.
        -- apply map_lookup_filter_None. by left.
    + intros [k v] Hin E. cbn in E. apply moved_elem in Hin as [L [s' ->]].
      rewrite reroot_prefixed in E. apply Hd. exists s'. by rewrite E.
Qed.

End MoveFacts.

(** ** [rename_file] *)

Section FileFacts.

Context (e : environment).

Lemma stat_Ret w p n :
  Os.stat w p = Ret n -> fs w !! p = Some n /\ holds_entry w p = true.
Proof.
  unfold Os.stat, holds_entry. destruct (fs w !! p) as [[c|b|x]|]; try discriminate;
    intros [= <-]; split; reflexivity.
Qed.

Lemma exists_false w p : Os.exists_ w p = Ret false -> holds_entry w p = false.
Proof.
  unfold Os.exists_, Os.stat_test, Os.stat, holds_entry.
  destruct (fs w !! p) as [[c|b|x]|]; try discriminate; try reflexivity.
Qed.

Lemma exists_true w p : holds_entry w p = true -> Os.exists_ w p = Ret true.
Proof.
  unfold Os.exists_, Os.stat_test, Os.stat, holds_entry.
  destruct (fs w !! p) as [[c|b|x]|]; try discriminate; reflexivity.
Qed.

(** The three ways [rename_file] ends. *)
Lemma rename_file_cases original_path new_filename w w' r :
  rename_file e original_path new_filename w = (w', r) ->
  let new_path := destination original_path new_filename in
  match r with
  | Ret true =>
      Os.exists_ w new_path = Ret false /\
      (exists n, Os.stat w original_path = Ret n) /\
      fs w' = Os.move original_path new_path (fs w)
  | Ret false => fs w' = fs w
  | Raise x =>
      (Os.exists_ w new_path = Raise x /\ fs w' = fs w)
      \/ (x = KeyboardInterrupt /\
          (fs w' = fs w \/ fs w' = Os.move original_path new_path (fs w)))
  end.
Proof.
  unfold destination, rename_file, try_except, bind, read, logger, ret, Os.rename.
  destruct (Os.exists_ w _) as [[|]|x] eqn:He.
  - intros [= <- <-]. reflexivity.
  - destruct (os_rename_error e _ _) as [x|].
    + destruct x; cbn; intros [= <- <-]; cbn; auto.
    + destruct (Os.stat w original_path) as [n|x] eqn:Hs.
      * destruct (interrupt_after_rename e _ _); cbn; intros [= <- <-]; cbn;
          eauto.
      * destruct x; cbn; intros [= <- <-]; cbn; auto.
  - intros [= <- <-]. cbn. auto.
Qed.

Lemma split_slash_plain s :
  ~ Str.occurs "/" s -> Path.split_slash s = [s].
Proof.
  induction s as [|c s IH]; [reflexivity|]. intros H.
  cbn [Path.split_slash].
  destruct (Ascii.eqb_spec c "/") as [->|Hc]; [exfalso; apply H; by left|].
  rewrite IH; [reflexivity|]. intros Hs. apply H. by right.
Qed.

(** A name of one entry is joined to the directory of a file as one
    component. *)
Lemma destination_component (p : path) (n : string) :
  component n -> destination p n = Path.parent p ++ [n].
Proof.
  intros (Hne & Hdot & _ & Hns).
  unfold destination, Path.truediv, Path.parts_of.
  rewrite (split_slash_plain _ Hns).
  destruct n as [|c s]; [congruence|].
  assert (Hc : c <> "/"%char) by (intros ->; apply Hns; by left).
  rewrite filter_cons_True by (split; [discriminate | exact Hdot]).
  destruct c as [[] [] [] [] [] [] [] []]; try reflexivity. congruence.
Qed.

Lemma parent_cases (p : path) :
  (p = ["/"] /\ Path.parent p = p) \/ (p <> ["/"] /\ Path.parent p = removelast p).
Proof.
  destruct (decide (p = ["/"])) as [->|Hne]; [left; split; reflexivity|].
  right. split; [exact Hne|].
  destruct p as [|a p']; [reflexivity|].
  destruct a as [|c a']; [destruct p'; reflexivity|].
  destruct c as [[] [] [] [] [] [] [] []]; destruct a'; destruct p';
    try reflexivity; congruence.
Qed.

Lemma parent_prefix (p : path) : Path.parent p `prefix_of` p.
Proof.
  destruct (parent_cases p) as [[_ ->]|[_ ->]];
    [exists []; symmetry; apply app_nil_r|].
  destruct (decide (p = [])) as [->|Hne]; [by exists []|].
  exists [List.last p EmptyString]. exact (app_removelast_last EmptyString Hne).
Qed.

(** A rename that succeeded: what the two paths held and hold. *)
Lemma rename_file_true_dst original_path new_filename w w' :
  rename_file e original_path new_filename w = (w', Ret true) ->
  holds_entry w original_path = true
  /\ holds_entry w (destination original_path new_filename) = false
  /\ fs w' !! destination original_path new_filename = fs w !! original_path.
Proof.
  intros H. apply rename_file_cases in H as (Hex & [n Hs] & Hfs).
  apply stat_Ret in Hs as [Hl Hh].
  split; [exact Hh|]. split; [by apply exists_false|]. rewrite Hfs.
  rewrite move_lookup, decide_True by reflexivity.
  by rewrite drop_all, app_nil_r.
Qed.

(** However a rename ends, the paths away from the two are as they were. *)
Lemma rename_file_frame original_path new_filename w w' r :
  rename_file e original_path new_filename w = (w', r) ->
  forall q, ~ original_path `prefix_of` q ->
            ~ destination original_path new_filename `prefix_of` q ->
            fs w' !! q = fs w !! q.
Proof.
  intros H q H1 H2. apply rename_file_cases in H. cbn zeta in H.
  destruct r as [[|]|x].
  - destruct H as (_ & _ & ->). rewrite move_lookup.
    by rewrite decide_False, decide_False.
  - by rewrite H.
  - destruct H as [[_ ->]|[_ [->| ->]]]; try reflexivity.
    rewrite move_lookup. by rewrite decide_False, decide_False.
Qed.



(** X10: when [rename_file] returns [True] for a new name that names
    one entry (not empty, neither [.] nor [..], no slash), the new path
    is the directory of the original path followed by the new name; the
    original path held a file or a directory, the new path held nothing,
    the new path now holds what the original path held, the original
    path holds nothing, and no path outside the two has changed. *)
Theorem rename_file_moves_entry original_path new_filename w w' :
  component new_filename ->
  rename_file e original_path new_filename w = (w', Ret true) ->
  let new_path := Path.parent original_path ++ [new_filename] in
  holds_entry w original_path = true
  /\ holds_entry w new_path = false
  /\ fs w' !! new_path = fs w !! original_path
  /\ fs w' !! original_path = None
  /\ (forall q, ~ original_path `prefix_of` q -> ~ new_path `prefix_of` q ->
                fs w' !! q = fs w !! q).
Proof.
  intros Hn H new_path. unfold new_path. clear new_path.
  rewrite <- (destination_component original_path new_filename Hn).
  destruct (rename_file_true_dst _ _ _ _ H) as (Hsrc & Hfree & Hdst).
  split; [exact Hsrc|]. split; [exact Hfree|]. split; [exact Hdst|]. split.
  - assert (Hnp : ~ destination original_path new_filename
                    `prefix_of` original_path).
    { rewrite (destination_component original_path new_filename Hn).
      intros Hp.
      assert (E : Path.parent original_path ++ [new_filename] = original_path).
      { destruct (parent_cases original_path) as [[-> _]|[_ E]].
        - apply prefix_length in Hp. cbn in Hp. lia.
        - rewrite E in Hp |- *.
          destruct (decide (original_path = [])) as [->|Hne];
            [apply prefix_length in Hp; cbn in Hp; lia|].
          pose proof (app_removelast_last EmptyString Hne) as Hl.
          destruct Hp as [k Hk].
          assert (k = []) as ->.
          { apply (f_equal (@length string)) in Hk.
            apply (f_equal (@length string)) in Hl.
            rewrite !length_app in Hk. rewrite !length_app in Hl.
            destruct k; [reflexivity|]. exfalso. cbn [length] in Hk, Hl. lia. }
          rewrite app_nil_r in Hk. by symmetry. }
      rewrite <- (destination_component original_path new_filename Hn) in E.
      rewrite E in Hfree. congruence. }
    apply rename_file_cases in H as (_ & _ & Hfs). rewrite Hfs.
    rewrite move_lookup, decide_False by exact Hnp.
    by rewrite decide_True by reflexivity.
  - exact (rename_file_frame _ _ _ _ _ H).
Qed.


End FileFacts.

(** ** [validate_folder] and [extract_invoice_data] *)

Section PipelineFacts.

Context (e : environment).

Lemma validate_folder_eq (folder : path) (w : world) :
  validate_folder folder w =
  let rejected m :=
    ({| fs := fs w; log := log w ++ [(ERROR, m)] |}, Ret false) in
  match fs w !! folder with
  | Some (Dir _) => (w, Ret true)
  | Some (File _) => rejected (PathIsNotADirectory folder)
  | None => rejected (FolderDoesNotExist folder)
  | Some (Fault x) =>
      if Os.ignore_error x then rejected (FolderDoesNotExist folder)
      else (w, Raise x)
  end.
Proof.
  unfold validate_folder, bind, read, logger, ret.
  unfold Os.exists_, Os.is_dir, Os.stat_test, Os.stat.
  destruct (fs w !! folder) as [[c|b|x]|] eqn:Hl; cbn; rewrite ?Hl; try reflexivity.
  destruct (Os.ignore_error x); reflexivity.
Qed.

Lemma validate_folder_fs (folder : path) (w w' : world) (r : result bool) :
  validate_folder folder w = (w', r) -> fs w' = fs w.
Proof.
  rewrite validate_folder_eq. cbn zeta.
  destruct (fs w !! folder) as [[c|b|x]|]; try destruct (Os.ignore_error x);
    by intros [= <- _].
Qed.

Lemma validate_folder_true (folder : path) (w w' : world) :
  validate_folder folder w = (w', Ret true) -> w' = w.
Proof.
  rewrite validate_folder_eq. cbn zeta.
  destruct (fs w !! folder) as [[c|b|x]|]; try destruct (Os.ignore_error x);
    by intros [= <-].
Qed.

(** X1: [validate_folder] changes no file.  It returns [True] exactly
    when the folder is a directory, and then logs nothing; it returns
    [False] only after logging one error, that the folder does not exist
    or that it is not a directory; and it raises exactly the error of
    [stat] that [exists()] does not ignore. *)
Theorem validate_folder_accepts_directories (folder : path) (w w' : world)
    (r : result bool) :
  validate_folder folder w = (w', r) ->
  fs w' = fs w
  /\ (r = Ret true <-> exists listable, fs w !! folder = Some (Dir listable))
  /\ (r = Ret true -> w' = w)
  /\ (r = Ret false ->
      exists m, log w' = log w ++ [(ERROR, m)] /\
        (m = FolderDoesNotExist folder \/ m = PathIsNotADirectory folder))
  /\ (forall x, r = Raise x <->
        fs w !! folder = Some (Fault x) /\ Os.ignore_error x = false).
Proof.
  rewrite validate_folder_eq. cbn zeta.
  destruct (fs w !! folder) as [[c|b|x]|] eqn:Hl;
    [| |destruct (Os.ignore_error x) eqn:Hi|];
    intros [= <- <-]; cbn [fs log]; split_and!; try naive_solver.
  intros x0. split; [discriminate|]. intros [[= <-] H]. congruence.
Qed.

Lemma read_bytes_Ret w p content :
  Os.read_bytes w p = Ret content <-> fs w !! p = Some (File content).
Proof.
  unfold Os.read_bytes, Os.stat.
  destruct (fs w !! p) as [[c|b|x]|]; naive_solver.
Qed.

(** How [extract_invoice_data] ends: with the record, or on the
    exception [x] of one of its three steps. *)
Lemma extract_invoice_data_cases (filepath : path) (w w' : world)
    (r : result (option Invoice)) :
  extract_invoice_data e filepath w = (w', r) ->
  (exists content response invoice,
     fs w !! filepath = Some (File content) /\
     generate_content e filepath content = Ret response /\
     parse_invoice e response = Ret invoice /\
     r = Ret (Some invoice) /\ fs w' = fs w)
  \/ (exists x,
        (Os.read_bytes w filepath = Raise x
         \/ (exists content,
               fs w !! filepath = Some (File content) /\
               (generate_content e filepath content = Raise x
                \/ exists response,
                     generate_content e filepath content = Ret response /\
                     parse_invoice e response = Raise x))) /\
        fs w' = fs w /\
        ((x = KeyboardInterrupt /\ r = Raise x)
         \/ (r = Ret None /\
             exists evs m, log w' = log w ++ evs ++ [(ERROR, m)]))).
Proof.
  unfold extract_invoice_data, try_except, bind, read, logger, ret.
  destruct (Os.read_bytes w filepath) as [data|x] eqn:Hr.
  - apply read_bytes_Ret in Hr.
    destruct (generate_content e filepath data) as [response|x] eqn:Hg.
    + destruct (parse_invoice e response) as [invoice|x] eqn:Hp.
      * intros H. injection H as <- <-. left.
        exists data, response, invoice. auto.
      * intros H. right. exists x.
        split; [right; exists data; split; [exact Hr|]; right; by exists response|].
        destruct x; cbn in H; injection H as <- <-;
          (split; [reflexivity|]); first [by left | right];
          (split; [reflexivity|]); eexists [_], _; cbn [log];
          rewrite <- app_assoc; reflexivity.
    + intros H. right. exists x.
      split; [right; exists data; split; [exact Hr|]; by left|].
      destruct x; cbn in H; injection H as <- <-;
        (split; [reflexivity|]); first [by left | right];
        (split; [reflexivity|]); by eexists [], _.
  - intros H. right. exists x. split; [by left|].
    destruct x; cbn in H; injection H as <- <-;
      (split; [reflexivity|]); first [by left | right];
      (split; [reflexivity|]); by eexists [], _.
Qed.

Lemma extract_invoice_data_fs (filepath : path) (w w' : world)
    (r : result (option Invoice)) :
  extract_invoice_data e filepath w = (w', r) -> fs w' = fs w.
Proof.
  intros H. apply extract_invoice_data_cases in H
    as [(content & response & invoice & _ & _ & _ & _ & Hfs)
       |(x & _ & Hfs & _)]; exact Hfs.
Qed.

Lemma extract_invoice_data_Some (filepath : path) (w w' : world)
    (invoice : Invoice) :
  extract_invoice_data e filepath w = (w', Ret (Some invoice)) ->
  exists content response,
    fs w !! filepath = Some (File content) /\
    generate_content e filepath content = Ret response /\
    parse_invoice e response = Ret invoice.
Proof.
  intros H. apply extract_invoice_data_cases in H
    as [(content & response & invoice0 & Hc & Hg & Hp & Hr & _)
       |(x & _ & _ & [[_ Hr]|[Hr _]])]; [|discriminate..].
  injection Hr as <-. eauto.
Qed.

(** X8: [extract_invoice_data] changes no file and lets only
    [KeyboardInterrupt] escape; it returns an invoice exactly when the
    file could be read, the service answered and the answer decoded to
    that invoice; and when it returns [None], the last thing it logged is
    an error. *)
Theorem extract_invoice_data_outcomes (filepath : path) (w w' : world)
    (r : result (option Invoice)) :
  extract_invoice_data e filepath w = (w', r) ->
  fs w' = fs w
  /\ (forall x, r = Raise x -> x = KeyboardInterrupt)
  /\ (forall invoice,
        r = Ret (Some invoice) <->
        exists content response,
          fs w !! filepath = Some (File content) /\
          generate_content e filepath content = Ret response /\
          parse_invoice e response = Ret invoice)
  /\ (r = Ret None ->
      exists evs m, log w' = log w ++ evs ++ [(ERROR, m)]).
Proof.
  intros H. apply extract_invoice_data_cases in H
    as [(content & response & invoice & Hc & Hg & Hp & -> & Hfs)
       |(x & Hx & Hfs & Hr)].
  - split; [exact Hfs|]. split; [discriminate|]. split; [|discriminate].
    intros invoice0. split.
    + intros [= <-]. eauto.
    + intros (c & resp & Hc' & Hg' & Hp'). congruence.
  - split; [exact Hfs|].
    assert (Hnot : forall invoice, r <> Ret (Some invoice))
      by (intros invoice; destruct Hr as [[_ ->]|[-> _]]; discriminate).
    split; [|split].
    + intros y ->. destruct Hr as [[-> [= ->]]|[[=] _]]. reflexivity.
    + intros invoice. split; [intros Hi; by destruct (Hnot invoice)|].
      intros (c & resp & Hc & Hg & Hp). exfalso.
      destruct Hx as [Hx|(c' & Hc' & [Hx|(resp' & Hg' & Hx)])].
      * apply read_bytes_Ret in Hc. congruence.
      * congruence.
      * assert (c' = c) by congruence. subst c'.
        assert (resp' = resp) by congruence. subst resp'. congruence.
    + intros ->. destruct Hr as [[_ [=]]|[_ Hl]]. exact Hl.
Qed.

End PipelineFacts.

(** ** [process_file] *)

Section ProcessFileFacts.

Context (e : environment).

Lemma generate_new_filename_run invoice original_path w :
  exists w1,
    generate_new_filename e invoice original_path w
      = (w1, Ret (new_name e invoice original_path))
    /\ fs w1 = fs w.
Proof.
  unfold generate_new_filename, bind.
  destruct (parse_date_to_yyyymmdd e (issue_date invoice) w) as [w1 r] eqn:Hp.
  pose proof (parse_date_value e (issue_date invoice) w) as Hv.
  rewrite Hp in Hv. cbn [snd] in Hv. subst r.
  apply parse_date_log in Hp as (_ & Hfs & _).
  exists w1. split; [reflexivity | exact Hfs].
Qed.

(** [process_file] as the sequence of its three steps. *)
Lemma process_file_steps filepath w w' r :
  process_file e filepath w = (w', r) ->
  exists w1 w2 ro,
    fs w1 = fs w /\
    extract_invoice_data e filepath w1 = (w2, ro) /\
    match ro with
    | Ret (Some invoice) =>
        exists w3, fs w3 = fs w2 /\
          rename_file e filepath (new_name e invoice filepath) w3 = (w', r)
    | Ret None => w' = w2 /\ r = Ret false
    | Raise x => w' = w2 /\ r = Raise x
    end.
Proof.
  unfold process_file. unfold bind at 1. unfold logger at 1.
  set (w1 := {| fs := fs w; log := _ |}). unfold bind at 1.
  destruct (extract_invoice_data e filepath w1) as [w2 [[invoice|]|x]] eqn:He;
    intros H; exists w1, w2; eexists; (split; [reflexivity|]);
    (split; [exact He|]).
  - unfold bind in H.
    destruct (generate_new_filename_run invoice filepath w2) as (w3 & Hg & Hfs).
    rewrite Hg in H. exists w3. split; [exact Hfs | exact H].
  - unfold ret in H. injection H as <- <-. split; reflexivity.
  - injection H as <- <-. split; reflexivity.
Qed.


Lemma holds_entry_fs w1 w2 p :
  fs w1 = fs w2 -> holds_entry w1 p = holds_entry w2 p.
Proof. unfold holds_entry. intros ->. reflexivity. Qed.

(** X14: when [process_file] returns [True], the file was read, the
    service answered, the answer decoded to an invoice, nothing was at
    the path of the name generated from that invoice, the content of the
    file is now there, and no path outside the two has changed. *)
Theorem process_file_success filepath w w' :
  process_file e filepath w = (w', Ret true) ->
  exists content response invoice,
    fs w !! filepath = Some (File content) /\
    generate_content e filepath content = Ret response /\
    parse_invoice e response = Ret invoice /\
    let new_path := destination filepath (new_name e invoice filepath) in
    holds_entry w new_path = false /\
    fs w' !! new_path = Some (File content) /\
    (forall q, ~ filepath `prefix_of` q -> ~ new_path `prefix_of` q ->
               fs w' !! q = fs w !! q).
Proof.
  intros H.
  apply process_file_steps in H as (w1 & w2 & ro & H1 & He & Hrest).
  apply extract_invoice_data_fs in He as H2.
  destruct ro as [[invoice|]|x]; [|destruct Hrest; discriminate..].
  destruct Hrest as (w3 & H3 & Hren).
  destruct (extract_invoice_data_Some e _ _ _ _ He)
    as (content & response & Hc & Hg & Hp).
  exists content, response, invoice.
  assert (Hfs : fs w3 = fs w) by congruence.
  rewrite H1 in Hc.
  pose proof (rename_file_frame e _ _ _ _ _ Hren) as Hframe.
  apply rename_file_true_dst in Hren as (_ & Hfree & Hdst).
  cbn zeta in *. rewrite Hfs in Hdst, Hframe.
  rewrite (holds_entry_fs _ _ _ Hfs) in Hfree.
  repeat split; try assumption. by rewrite Hdst.
Qed.

(** The files [process_file] may change: the file itself and the path
    of its new name. *)
Lemma process_file_changes filepath w w' r :
  process_file e filepath w = (w', r) ->
  fs w' = fs w \/
  exists invoice,
    forall q, ~ filepath `prefix_of` q ->
      ~ destination filepath (new_name e invoice filepath) `prefix_of` q ->
      fs w' !! q = fs w !! q.
Proof.
  intros H.
  apply process_file_steps in H as (w1 & w2 & ro & H1 & He & Hrest).
  apply extract_invoice_data_fs in He as H2.
  destruct ro as [[invoice|]|x].
  - destruct Hrest as (w3 & H3 & Hren). right. exists invoice.
    intros q Hq1 Hq2.
    rewrite (rename_file_frame e _ _ _ _ _ Hren q Hq1 Hq2). congruence.
  - destruct Hrest as [-> _]. left. congruence.
  - destruct Hrest as [-> _]. left. congruence.
Qed.

End ProcessFileFacts.

(** ** [get_pdf_files] *)

Section ListingFacts.

Lemma is_file_true w p :
  Os.is_file w p = Ret true <-> exists content, fs w !! p = Some (File content).
Proof.
  unfold Os.is_file, Os.stat_test, Os.stat.
  destruct (fs w !! p) as [[c|b|x]|]; cbn; try destruct (Os.ignore_error x);
    naive_solver.
Qed.

Lemma select_pdf_Ret w files out :
  select_pdf w files = Ret out ->
  out `sublist_of` files /\
  forall p, p ∈ out <->
    p ∈ files /\ (exists content, fs w !! p = Some (File content)) /\
    Str.lower (Path.suffix p) = ".pdf".
Proof.
  revert out. induction files as [|f files IH]; intros out; cbn [select_pdf].
  - intros [= <-]. split; [constructor|]. intros p. split.
    + intros H. by apply elem_of_nil in H.
    + intros [H _]. exact H.
  - destruct (Os.is_file w f) as [b|x] eqn:Hf; [|discriminate].
    destruct (select_pdf w files) as [rest|x]; [|discriminate].
    destruct (IH rest eq_refl) as [Hsub Hmem].
    assert (Hkeep : b && String.eqb (Str.lower (Path.suffix f)) ".pdf" = true
                    <-> (exists content, fs w !! f = Some (File content)) /\
                        Str.lower (Path.suffix f) = ".pdf").
    { rewrite andb_true_iff, String.eqb_eq, <- is_file_true, Hf.
      split; intros [H1 H2]; split; congruence. }
    destruct (b && String.eqb (Str.lower (Path.suffix f)) ".pdf") eqn:Hb;
      intros [= <-].
    + split; [by apply sublist_skip|]. intros p.
      rewrite !elem_of_cons, Hmem. split.
      * intros [->|H]; [split; [by left | by apply Hkeep]|].
        destruct H as (H1 & H2). split; [by right | exact H2].
      * intros [[->|H1] H2]; [by left | right; by split].
    + split; [by apply sublist_cons|]. intros p.
      rewrite elem_of_cons, Hmem. split.
      * intros (H1 & H2). split; [by right | exact H2].
      * intros [[->|H1] H2]; [|by split].
        apply Hkeep in H2. discriminate.
Qed.

Lemma children_elem w d p :
  p ∈ Os.children w d <-> is_Some (fs w !! p) /\ Path.parent p = d /\ p <> d.
Proof.
  unfold Os.children. rewrite list_elem_of_filter.
  assert (H : p ∈ map fst (map_to_list (fs w)) <-> is_Some (fs w !! p)).
  { change (map fst (map_to_list (fs w))) with ((map_to_list (fs w)).*1).
    rewrite list_elem_of_fmap. split.
    - intros [[k v] [-> Hin]]. apply elem_of_map_to_list in Hin. by exists v.
    - intros [v Hv]. exists (p, v). split; [reflexivity|].
      by apply elem_of_map_to_list. }
  rewrite H. tauto.
Qed.

Lemma children_NoDup w d : NoDup (Os.children w d).
Proof. apply NoDup_filter, NoDup_fst_map_to_list. Qed.

Lemma pdf_listing_Ret folder w files :
  pdf_listing folder w = Ret files ->
  fs w !! folder = Some (Dir true) /\ select_pdf w (Os.children w folder) = Ret files.
Proof.
  unfold pdf_listing, Os.iterdir, Os.stat.
  destruct (fs w !! folder) as [[c|[|]|x]|]; try discriminate. auto.
Qed.

(** The two ways [get_pdf_files] returns a list. *)
Lemma get_pdf_files_Ret folder w w' files :
  get_pdf_files folder w = (w', Ret files) ->
  fs w' = fs w /\
  (pdf_listing folder w = Ret files
   \/ (pdf_listing folder w = Raise PermissionError /\ files = [])).
Proof.
  unfold get_pdf_files, try_except, bind, read, logger, ret.
  destruct (pdf_listing folder w) as [l|x].
  - intros [= <- <-]. auto.
  - destruct x; cbn; intros [= <- <-]; auto.
Qed.

(** Each path [get_pdf_files] returns is a document of the folder. *)
Lemma get_pdf_files_sound (folder : path) (w w' : world) (files : list path) :
  get_pdf_files folder w = (w', Ret files) ->
  fs w' = fs w
  /\ NoDup files
  /\ (forall p, p ∈ files ->
        (exists content, fs w !! p = Some (File content)) /\
        Path.parent p = folder /\ p <> folder /\
        Str.lower (Path.suffix p) = ".pdf").
Proof.
  intros H. apply get_pdf_files_Ret in H as [Hfs [Hl|[Hl ->]]].
  - apply pdf_listing_Ret in Hl as [Hd Hsel].
    apply select_pdf_Ret in Hsel as [Hsub Hmem].
    split; [exact Hfs|]. split.
    + exact (sublist_NoDup _ _ (children_NoDup w folder) Hsub).
    + intros p Hp. apply Hmem in Hp as (Hc & Hf & Hs).
      apply children_elem in Hc as (_ & Hpar & Hne). auto.
  - split; [exact Hfs|]. split; [constructor|].
    intros p Hp. by apply elem_of_nil in Hp.
Qed.

Lemma get_pdf_files_Raise_world (folder : path) (w w' : world) (x : exn) :
  get_pdf_files folder w = (w', Raise x) -> w' = w.
Proof.
  unfold get_pdf_files, try_except, bind, read, logger, ret.
  destruct (pdf_listing folder w) as [l|y]; [discriminate|].
  destruct y; cbn; by intros [= <- _].
Qed.

(** X2: the list [get_pdf_files] returns has no path twice; each path in
    it is a regular file directly in the folder whose suffix is [.pdf]
    up to case; and unless the listing met a [PermissionError], each such
    file is in it.  No file is changed. *)
Theorem get_pdf_files_lists_documents (folder : path) (w w' : world)
    (files : list path) :
  get_pdf_files folder w = (w', Ret files) ->
  fs w' = fs w
  /\ NoDup files
  /\ (forall p, p ∈ files ->
        (exists content, fs w !! p = Some (File content)) /\
        Path.parent p = folder /\ p <> folder /\
        Str.lower (Path.suffix p) = ".pdf")
  /\ (pdf_listing folder w <> Raise PermissionError ->
      forall p content,
        fs w !! p = Some (File content) ->
        Path.parent p = folder -> p <> folder ->
        Str.lower (Path.suffix p) = ".pdf" ->
        p ∈ files).
Proof.
  intros H.
  destruct (get_pdf_files_sound _ _ _ _ H) as (Hfs & Hnd & Hdoc).
  split; [exact Hfs|]. split; [exact Hnd|]. split; [exact Hdoc|].
  intros Hno p content Hp Hpar Hne Hs.
  apply get_pdf_files_Ret in H as [_ [Hl|[Hl _]]]; [|congruence].
  apply pdf_listing_Ret in Hl as [_ Hsel].
  apply select_pdf_Ret in Hsel as [_ Hmem]. apply Hmem.
  split; [|split; [by exists content | exact Hs]].
  apply children_elem. split; [by exists (File content) | auto].
Qed.

(** X3: [get_pdf_files] never raises [PermissionError]; an error it
    raises is the one the listing raised, and then nothing was logged or
    changed. *)
Theorem get_pdf_files_errors (folder : path) (w w' : world) (x : exn) :
  get_pdf_files folder w = (w', Raise x) ->
  x <> PermissionError /\ w' = w /\ pdf_listing folder w = Raise x.
Proof.
  unfold get_pdf_files, try_except, bind, read, logger, ret.
  destruct (pdf_listing folder w) as [l|y]; [discriminate|].
  destruct y; cbn; intros [= <- <-]; repeat split; discriminate.
Qed.

Lemma select_pdf_denied w files p :
  p ∈ files -> fs w !! p = Some (Fault PermissionError) ->
  (forall q x, q ∈ files -> fs w !! q = Some (Fault x) ->
               x = PermissionError \/ Os.ignore_error x = true) ->
  select_pdf w files = Raise PermissionError.
Proof.
  induction files as [|f files IH]; intros Hin Hp Hall.
  - by apply elem_of_nil in Hin.
  - assert (Hhead : f ∈ f :: files) by left.
    assert (Htail : p <> f -> select_pdf w files = Raise PermissionError).
    { intros Hne. apply IH; [|exact Hp|].
      - apply elem_of_cons in Hin as [?|Hin]; [congruence | exact Hin].
      - intros q y Hq. apply Hall. by right. }
    cbn [select_pdf]. unfold Os.is_file, Os.stat_test, Os.stat.
    destruct (fs w !! f) as [[c|b|x]|] eqn:Hf.
    + rewrite Htail by congruence. reflexivity.
    + rewrite Htail by congruence. reflexivity.
    + destruct (Hall f x Hhead Hf) as [->|Hi]; [reflexivity|].
      rewrite Hi. rewrite Htail; [reflexivity|].
      intros ->. rewrite Hp in Hf. injection Hf as <-. discriminate Hi.
    + rewrite Htail by congruence. reflexivity.
Qed.

(** X4: if one entry of a listable folder can not be examined ([stat]
    raises [PermissionError] on it) and no entry raises an error of
    another kind that goes on, [get_pdf_files] logs that the folder is
    denied and returns no document, whatever documents the folder
    holds. *)
Theorem unreadable_entry_hides_documents (folder p : path) (w : world) :
  fs w !! folder = Some (Dir true) ->
  Path.parent p = folder -> p <> folder ->
  fs w !! p = Some (Fault PermissionError) ->
  (forall q x, Path.parent q = folder -> fs w !! q = Some (Fault x) ->
               x = PermissionError \/ Os.ignore_error x = true) ->
  get_pdf_files folder w =
    ({| fs := fs w; log := log w ++ [(ERROR, PermissionDenied folder)] |}, Ret []).
Proof.
  intros Hd Hpar Hne Hp Hall. apply get_pdf_files_denied.
  unfold pdf_listing, Os.iterdir, Os.stat. rewrite Hd.
  apply (select_pdf_denied w _ p).
  - apply children_elem. split; [by eexists | auto].
  - exact Hp.
  - intros q x Hq. apply children_elem in Hq as (_ & Hq & _). by apply Hall.
Qed.

End ListingFacts.

(** ** The texts of a file name *)

Section TextFacts.

Lemma occurs_app c a b :
  Str.occurs c (a ++ b) <-> Str.occurs c a \/ Str.occurs c b.
Proof.
  unfold Str.occurs. induction a as [|d a IH].
  - cbn. tauto.
  - change (String d a ++ b)%string with (String d (a ++ b)).
    cbn [list_ascii_of_string In]. rewrite IH. tauto.
Qed.

Lemma length_sub_empty cls s :
  String.length (Re.sub_empty cls s) <= String.length s.
Proof.
  induction s as [|c s IH]; cbn [Re.sub_empty String.length]; [lia|].
  destruct (cls c); cbn [String.length]; lia.
Qed.

Lemma length_sub_runs cls rep b s :
  String.length (Re.sub_runs cls rep b s) <= String.length s.
Proof.
  revert b. induction s as [|c s IH]; intros b;
    cbn [Re.sub_runs String.length]; [lia|].
  destruct (cls c); [destruct b|]; cbn [String.length];
    pose proof (IH true); pose proof (IH false); lia.
Qed.

Lemma length_lstrip cls s :
  String.length (Str.lstrip cls s) <= String.length s.
Proof.
  induction s as [|c s IH]; cbn [Str.lstrip String.length]; [lia|].
  destruct (cls c); cbn [String.length]; lia.
Qed.

Lemma length_rstrip cls s :
  String.length (Str.rstrip cls s) <= String.length s.
Proof.
  induction s as [|c s IH]; cbn [Str.rstrip String.length]; [lia|].
  destruct (Str.rstrip cls s); [destruct (cls c)|];
    cbn [String.length] in *; lia.
Qed.

(** X5: the sanitized text is no longer than the text, and each of its
    characters is an underscore or a character of the text. *)
Theorem sanitize_filename_only_deletes (x : string) :
  String.length (sanitize_filename x) <= String.length x
  /\ forall c, Str.occurs c (sanitize_filename x) ->
       (c = "_"%char \/ Str.occurs c x).
Proof.
  unfold sanitize_filename, Str.strip. split.
  - etransitivity; [apply length_lstrip|].
    etransitivity; [apply length_rstrip|].
    etransitivity; [apply length_sub_runs|]. apply length_sub_empty.
  - intros c H. apply occurs_lstrip, occurs_rstrip, occurs_sub_runs in H.
    destruct H as [->|[H _]]; [by left|].
    apply occurs_sub_empty in H as [H _]. by right.
Qed.

(** X6: [sanitize_filename] returns a text as it is exactly when the
    text has no invalid character and no white space, and neither starts
    nor ends with a space or a dot. *)
Theorem sanitize_filename_fixed_points (x : string) :
  sanitize_filename x = x <-> safe_text x.
Proof.
  split.
  - intros E. unfold safe_text. rewrite <- E. split; [|split].
    + intros c. apply occurs_sanitize_filename.
    + intros c. apply head_strip.
    + intros c. apply last_strip.
  - intros (Hocc & Hh & Hl). unfold sanitize_filename.
    rewrite sub_empty_id by (intros c Hc; apply (Hocc c Hc)).
    rewrite sub_runs_id by (intros c Hc; apply (Hocc c Hc)).
    by apply strip_id.
Qed.

Lemma occurs_pad2 c n : Str.occurs c (Datetime.pad2 n) -> Re.is_digit c = true.
Proof.
  unfold Datetime.pad2. intros [<-|[<-|[]]];
    apply is_digit_char, Nat.mod_upper_bound; lia.
Qed.

Lemma occurs_pad4 c n : Str.occurs c (Datetime.pad4 n) -> Re.is_digit c = true.
Proof.
  unfold Datetime.pad4. intros [<-|[<-|H]];
    [apply is_digit_char, Nat.mod_upper_bound; lia ..|].
  by apply occurs_pad2 in H.
Qed.

Lemma occurs_date_token e s c :
  Str.occurs c (date_token e s) -> Re.is_digit c = true.
Proof.
  unfold date_token. destruct (Datetime.strptime s) as [[[y m] d]|].
  - unfold Datetime.strftime, Datetime.format_Y.
    rewrite !occurs_app. intros [H|[H|H]]; try by apply occurs_pad2 in H.
    destruct (libc_pads_year e); [|apply occurs_lstrip in H];
      by apply occurs_pad4 in H.
  - rewrite <- sub_empty_not_digit. intros H.
    apply occurs_sub_empty in H as [_ H]. by apply negb_false_iff in H.
Qed.

Lemma length_append a b :
  String.length (a ++ b) = String.length a + String.length b.
Proof.
  induction a as [|c a IH]; [reflexivity|].
  change (String c a ++ b)%string with (String c (a ++ b)).
  cbn [String.length]. by rewrite IH.
Qed.

Lemma length_date_token e s :
  String.length (date_token e s) <= Nat.max 8 (String.length s).
Proof.
  unfold date_token. destruct (Datetime.strptime s) as [[[y m] d]|].
  - unfold Datetime.strftime, Datetime.format_Y.
    rewrite !length_append.
    assert (String.length (Datetime.pad4 y) = 4) by reflexivity.
    assert (forall n, String.length (Datetime.pad2 n) = 2) as H2 by reflexivity.
    rewrite !H2.
    destruct (libc_pads_year e).
    + lia.
    + pose proof (length_lstrip (Datetime.lit "0") (Datetime.pad4 y)). lia.
  - rewrite <- sub_empty_not_digit.
    pose proof (length_sub_empty (fun c => negb (Re.is_digit c)) s). lia.
Qed.

(** X7: for every text, [parse_date_to_yyyymmdd] returns a text of
    decimal digits only, of at most eight characters or the length of the
    input, whichever is larger. *)
Theorem parse_date_to_yyyymmdd_digits (e : environment) (date_str : string)
    (w : world) :
  exists v,
    (parse_date_to_yyyymmdd e date_str w).2 = Ret v /\
    (forall c, Str.occurs c v -> Re.is_digit c = true) /\
    String.length v <= Nat.max 8 (String.length date_str).
Proof.
  exists (date_token e date_str). split; [apply parse_date_value|].
  split; [intros c; apply occurs_date_token | apply length_date_token].
Qed.

End TextFacts.

(** ** The directory of a file *)

Section FrameFacts.

Context (e : environment).

Lemma from_last_dot_occurs s t c :
  Str.from_last_dot s = Some t -> Str.occurs c t -> Str.occurs c s.
Proof.
  revert t. induction s as [|d s IH]; intros t; cbn [Str.from_last_dot];
    [discriminate|].
  destruct (Str.from_last_dot s) as [t'|].
  - intros [= <-] H. right. by apply (IH t').
  - destruct (Ascii.eqb d "."); [|discriminate]. by intros [= <-].
Qed.

Lemma occurs_suffix p c :
  Str.occurs c (Path.suffix p) -> Str.occurs c (Path.name p).
Proof.
  unfold Path.suffix.
  destruct (Str.from_last_dot (Path.name p)) as [t|] eqn:Ht; [|intros []].
  destruct (bool_decide _); [|intros []].
  by apply from_last_dot_occurs.
Qed.

Lemma occurs_new_name invoice original_path c :
  Str.occurs c (new_name e invoice original_path) ->
  c = "_"%char \/ (Re.is_invalid c = false /\ Re.is_space c = false)
  \/ Re.is_digit c = true \/ Str.occurs c (Path.name original_path).
Proof.
  unfold new_name. rewrite !occurs_app.
  intros [H|[H|[H|[H|[H|H]]]]].
  - right; left. by apply occurs_sanitize_filename in H.
  - left. by destruct H as [<-|[]].
  - right; left. by apply occurs_sanitize_filename in H.
  - left. by destruct H as [<-|[]].
  - right; right; left. by apply occurs_date_token in H.
  - right; right; right. by apply occurs_suffix.
Qed.

Lemma new_name_underscore invoice original_path :
  Str.occurs "_" (new_name e invoice original_path).
Proof. unfold new_name. rewrite !occurs_app. right; left. by left. Qed.

Lemma new_name_no_slash invoice original_path :
  ~ Str.occurs "/" (Path.name original_path) ->
  ~ Str.occurs "/" (new_name e invoice original_path).
Proof.
  intros Hplain H. apply occurs_new_name in H as [H|[[H _]|[H|H]]];
    [discriminate H..|by apply Hplain].
Qed.

(** The new name of a file is joined to the directory of the file as
    one component. *)
Lemma destination_new_name invoice original_path :
  ~ Str.occurs "/" (Path.name original_path) ->
  destination original_path (new_name e invoice original_path)
    = Path.parent original_path ++ [new_name e invoice original_path].
Proof.
  intros Hplain.
  pose proof (new_name_underscore invoice original_path) as Hu.
  pose proof (new_name_no_slash invoice original_path Hplain) as Hns.
  unfold destination, Path.truediv, Path.parts_of.
  rewrite (split_slash_plain _ Hns).
  destruct (new_name e invoice original_path) as [|c s] eqn:En; [destruct Hu|].
  assert (Hc : c <> "/"%char) by (intros ->; apply Hns; by left).
  assert (Hdot : String c s <> ".").
  { intros E. rewrite E in Hu. by destruct Hu as [?|[]]. }
  rewrite filter_cons_True by (split; [discriminate | exact Hdot]).
  destruct c as [[] [] [] [] [] [] [] []]; try reflexivity. congruence.
Qed.

(** X9: for a file whose name has no slash, the name
    [generate_new_filename] returns has no slash and contains an
    underscore, so that the path [rename_file] builds from it is a
    sibling of the file. *)
Theorem new_name_is_one_component (invoice : Invoice) (original_path : path)
    (w : world) :
  ~ Str.occurs "/" (Path.name original_path) ->
  let new_filename := new_name e invoice original_path in
  (generate_new_filename e invoice original_path w).2 = Ret new_filename
  /\ ~ Str.occurs "/" new_filename
  /\ Str.occurs "_" new_filename
  /\ destination original_path new_filename
      = Path.parent original_path ++ [new_filename].
Proof.
  intros Hplain new_filename. unfold new_filename.
  destruct (generate_new_filename_run e invoice original_path w) as (w1 & -> & _).
  split; [reflexivity|].
  split; [by apply new_name_no_slash|].
  split; [apply new_name_underscore|].
  by apply destination_new_name.
Qed.

Lemma prefix_trans3 (a b c : path) :
  a `prefix_of` b -> b `prefix_of` c -> a `prefix_of` c.
Proof. intros H1 H2. by etransitivity. Qed.

(** A file of [folder] is processed without a change outside
    [folder]. *)
Lemma process_file_frame (folder filepath : path) (w w' : world)
    (r : result bool) :
  process_file e filepath w = (w', r) ->
  Path.parent filepath = folder ->
  ~ Str.occurs "/" (Path.name filepath) ->
  forall q, ~ folder `prefix_of` q -> fs w' !! q = fs w !! q.
Proof.
  intros H <- Hplain q Hq.
  destruct (process_file_changes e _ _ _ _ H) as [->|[invoice Hframe]];
    [reflexivity|].
  apply Hframe.
  - intros Hp. apply Hq. eapply prefix_trans3; [apply parent_prefix | exact Hp].
  - intros Hp. apply Hq. rewrite destination_new_name in Hp by exact Hplain.
    eapply prefix_trans3; [|exact Hp]. by eexists.
Qed.

(** X15: [process_file] on a file whose name has no slash changes at
    most the file itself and one sibling path of it; in particular it
    changes nothing outside the directory of the file. *)
Theorem process_file_stays_in_directory (filepath : path) (w w' : world)
    (r : result bool) :
  process_file e filepath w = (w', r) ->
  ~ Str.occurs "/" (Path.name filepath) ->
  (exists sibling,
     ~ Str.occurs "/" sibling /\
     forall q, ~ filepath `prefix_of` q ->
       ~ (Path.parent filepath ++ [sibling]) `prefix_of` q ->
       fs w' !! q = fs w !! q)
  /\ (forall q, ~ Path.parent filepath `prefix_of` q ->
                fs w' !! q = fs w !! q).
Proof.
  intros H Hplain. split.
  - destruct (process_file_changes e _ _ _ _ H) as [Hfs|[invoice Hframe]].
    + exists EmptyString. split; [intros []|]. intros q _ _. by rewrite Hfs.
    + exists (new_name e invoice filepath).
      split; [by apply new_name_no_slash|].
      rewrite <- destination_new_name by exact Hplain. exact Hframe.
  - exact (process_file_frame _ _ _ _ _ H eq_refl Hplain).
Qed.

End FrameFacts.

(** ** The batch and [main] *)

Section BatchFacts.

Context (e : environment).

Lemma name_cases (p : path) :
  p <> ["/"] -> Path.name p = List.last p EmptyString.
Proof.
  intros Hne. destruct p as [|a p']; [reflexivity|].
  destruct a as [|c a']; [destruct p'; reflexivity|].
  destruct c as [[] [] [] [] [] [] [] []]; destruct a'; destruct p';
    try reflexivity; congruence.
Qed.

(** A path directly inside [folder] is [folder] and its name. *)
Lemma child_decompose (folder p : path) :
  Path.parent p = folder -> p <> folder -> p = folder ++ [Path.name p].
Proof.
  intros Hpar Hne.
  destruct (parent_cases p) as [[_ E]|[Hroot E]]; [congruence|].
  rewrite name_cases by exact Hroot. rewrite <- Hpar, E.
  apply app_removelast_last. intros ->. apply Hne. by rewrite <- Hpar, E.
Qed.

Lemma process_loop_frame (folder : path) files c w w' r :
  process_loop e files c w = (w', r) ->
  Forall (fun f => Path.parent f = folder /\ ~ Str.occurs "/" (Path.name f)) files ->
  forall q, ~ folder `prefix_of` q -> fs w' !! q = fs w !! q.
Proof.
  revert c w. induction files as [|f files IH]; intros c w Hrun Hall q Hq.
  - cbn in Hrun. by injection Hrun as <- _.
  - apply Forall_cons in Hall as [[Hpar Hplain] Hall].
    rewrite process_loop_cons in Hrun.
    destruct (process_file e f w) as [w1 r1] eqn:Hf.
    assert (H1 : fs w1 !! q = fs w !! q).
    { exact (process_file_frame e folder f w w1 r1 Hf Hpar Hplain q Hq). }
    destruct r1 as [[|]|x].
    + rewrite <- H1. by apply (IH _ _ Hrun).
    + rewrite <- H1. by apply (IH _ _ Hrun).
    + destruct x; try (rewrite <- H1; by apply (IH _ _ Hrun)).
      injection Hrun as <- _. exact H1.
Qed.

(** X18: when no name in the file system has a slash,
    [process_all_files] changes nothing outside the folder. *)
Theorem process_all_files_stays_in_folder (folder : path) (w w' : world)
    (r : result (nat * nat)) :
  plain_names w ->
  process_all_files e folder w = (w', r) ->
  forall q, ~ folder `prefix_of` q -> fs w' !! q = fs w !! q.
Proof.
  intros Hplain H q Hq. rewrite process_all_files_eq in H.
  destruct (validate_folder folder w) as [wv rv] eqn:Hv.
  pose proof (validate_folder_fs _ _ _ _ Hv) as Hfv.
  destruct rv as [[|]|x]; [|injection H as <- _; by rewrite Hfv..].
  apply validate_folder_true in Hv as ->. clear Hfv.
  destruct (get_pdf_files folder w) as [w0 rg] eqn:Hg.
  destruct rg as [files|x].
  - destruct (get_pdf_files_sound _ _ _ _ Hg) as (Hf0 & _ & Hdoc).
    destruct files as [|f files]; [injection H as <- _; by rewrite Hf0|].
    destruct (process_loop e (f :: files) 0 w0) as [w1 r1] eqn:Hrun.
    assert (fs w1 !! q = fs w0 !! q) as H1.
    { apply (process_loop_frame folder _ _ _ _ _ Hrun); [|exact Hq].
      apply Forall_forall. intros p Hp.
      destruct (Hdoc p Hp) as ([content Hc] & Hpar & _).
      split; [exact Hpar|]. apply Hplain. by eexists. }
    destruct r1; injection H as <- _; by rewrite H1, Hf0.
  - apply get_pdf_files_Raise_world in Hg as ->.
    by injection H as <- _.
Qed.

(** X19: [main] raises nothing and returns 0 or 1, and the files it
    leaves are the files it found or the files [process_all_files]
    leaves. *)
Theorem main_returns_status (folder : path) (w : world) :
  exists w' code,
    main e folder w = (w', Ret code) /\ (code = 0 \/ code = 1) /\
    (fs w' = fs w \/ fs w' = fs (process_all_files e folder w).1).
Proof.
  unfold main, try_except, bind, raise, ret, logger.
  destruct (client_error e) as [x|].
  - destruct x; cbn; eexists _, _; (split; [reflexivity|]); auto.
  - destruct (process_all_files e folder w) as [w1 r1] eqn:Hp.
    destruct r1 as [[s t]|x].
    + destruct (t =? 0)%nat; [|destruct (s =? t)%nat];
        eexists _, _; (split; [reflexivity|]); auto.
    + destruct x; cbn; eexists _, _; (split; [reflexivity|]); auto.
Qed.

Lemma process_loop_processing_prefix files c w w' r evs :
  process_loop e files c w = (w', r) ->
  log w' = log w ++ evs ->
  Log.processing_names evs `prefix_of` map Path.name files.
Proof.
  revert c w evs. induction files as [|f files IH]; intros c w evs Hrun Hl.
  - cbn in Hrun. injection Hrun as <- _.
    rewrite <- (app_nil_r (log w)) in Hl at 1. apply app_inv_head in Hl.
    subst evs. by exists [].
  - rewrite process_loop_cons in Hrun.
    destruct (process_file e f w) as [w1 r1] eqn:Hf.
    apply process_file_log in Hf as (evs1 & Hl1 & P1 & _ & _).
    assert (Hcont : forall c0 w2 evs2,
              log w2 = log w1 ++ evs2 -> Log.processing_names evs2 = [] ->
              process_loop e files c0 w2 = (w', r) ->
              Log.processing_names evs `prefix_of` map Path.name (f :: files)).
    { intros c0 w2 evs2 Hl2 P2 Hrun2.
      destruct (process_loop_spec e files c0 w2)
        as (w3 & c3 & evs3 & Hrun3 & Hl3 & _).
      rewrite Hrun2 in Hrun3. injection Hrun3 as <- _.
      rewrite Hl3, Hl2, Hl1, <- !app_assoc in Hl. apply app_inv_head in Hl.
      subst evs. rewrite !processing_names_app, P1, P2. cbn [app map].
      apply prefix_cons. apply (IH c0 w2 evs3 Hrun2 Hl3). }
    destruct r1 as [[|]|x].
    + apply (Hcont (c + 1) w1 []);
        [symmetry; apply app_nil_r | reflexivity | exact Hrun].
    + apply (Hcont c w1 []);
        [symmetry; apply app_nil_r | reflexivity | exact Hrun].
    + destruct x;
        try (match goal with
             | _ : process_loop e files c (after_unexpected f ?x w1) = _ |- _ =>
                 apply (Hcont c (after_unexpected f x w1)
                          [(ERROR, UnexpectedErrorProcessing (Path.name f) x)]);
                 [reflexivity | reflexivity | exact Hrun]
             end).
      injection Hrun as <- _. cbn [after_interrupt log] in Hl.
      rewrite Hl1, <- app_assoc in Hl. apply app_inv_head in Hl. subst evs.
      rewrite processing_names_app, P1. cbn. by exists (map Path.name files).
Qed.

Lemma validate_folder_log (folder : path) w wv rv :
  validate_folder folder w = (wv, rv) ->
  exists evs0, log wv = log w ++ evs0 /\ Log.processing_names evs0 = [].
Proof.
  rewrite validate_folder_eq. cbn zeta.
  destruct (fs w !! folder) as [[c|b|y]|]; try destruct (Os.ignore_error y);
    intros [= <- _];
    first [ by exists [] ; rewrite app_nil_r | by eexists [_] ].
Qed.

(** X16: the names whose processing a run of [process_all_files] logs
    are pairwise different, and each is the name of a regular file of the
    folder whose suffix is [.pdf] up to case. *)
Theorem process_all_files_processes_documents_once (folder : path)
    (w w' : world) (r : result (nat * nat)) (evs : list (level * message)) :
  process_all_files e folder w = (w', r) ->
  log w' = log w ++ evs ->
  NoDup (Log.processing_names evs)
  /\ forall name, name ∈ Log.processing_names evs ->
       (exists content, fs w !! (folder ++ [name]) = Some (File content))
       /\ Str.lower (Path.suffix (folder ++ [name])) = ".pdf".
Proof.
  intros H Hl. rewrite process_all_files_eq in H.
  assert (Hnone : forall (evs0 : list (level * message)),
            Log.processing_names evs0 = [] -> log w' = log w ++ evs0 ->
            NoDup (Log.processing_names evs)
            /\ forall name, name ∈ Log.processing_names evs ->
                 (exists content, fs w !! (folder ++ [name]) = Some (File content))
                 /\ Str.lower (Path.suffix (folder ++ [name])) = ".pdf").
  { intros evs0 P0 Hl0. rewrite Hl0 in Hl. apply app_inv_head in Hl. subst evs0.
    rewrite P0. split; [constructor|]. intros n Hn. by apply elem_of_nil in Hn. }
  destruct (validate_folder folder w) as [wv rv] eqn:Hv.
  destruct (validate_folder_log _ _ _ _ Hv) as (evsv & Hlv & Pv).
  destruct rv as [[|]|x]; [|injection H as <- _; by apply (Hnone evsv)..].
  apply validate_folder_true in Hv as ->.
  clear Hlv Pv evsv.
  destruct (get_pdf_files folder w) as [w0 rg] eqn:Hg.
  destruct rg as [files|x].
  2: { apply get_pdf_files_Raise_world in Hg as ->.
       injection H as <- _. apply (Hnone []); [reflexivity | symmetry; apply app_nil_r]. }
  destruct (get_pdf_files_sound _ _ _ _ Hg) as (_ & Hnd & Hdoc).
  assert (Hlg : exists m, log w0 = log w ++ [m] /\ Log.processing_names [m] = []).
  { apply get_pdf_files_Ret in Hg as Hg'. revert Hg.
    unfold get_pdf_files, try_except, bind, read, logger, ret.
    destruct (pdf_listing folder w) as [l|y].
    - intros [= <- _]. by eexists.
    - destruct y; cbn; intros [= <- _]; by eexists. }
  destruct Hlg as (m & Hl0 & P0).
  destruct files as [|f files].
  { injection H as <- _. apply (Hnone [m; (WARNING, NoPdfFilesFound)]).
    - unfold Log.processing_names in *. cbn in *.
      destruct (Log.processing_name m); [discriminate | reflexivity].
    - cbn [log]. rewrite Hl0, <- app_assoc. reflexivity. }
  destruct (process_loop e (f :: files) 0 w0) as [w1 r1] eqn:Hrun.
  destruct (process_loop_spec e (f :: files) 0 w0)
    as (w2 & c2 & evs2 & Hrun2 & Hl2 & _).
  rewrite Hrun in Hrun2. injection Hrun2 as <- ->.
  injection H as <- _.
  pose proof (process_loop_processing_prefix _ _ _ _ _ _ Hrun Hl2) as Hpre.
  rewrite Hl2, Hl0, <- app_assoc in Hl. apply app_inv_head in Hl. subst evs.
  rewrite processing_names_app, P0. cbn [app].
  assert (Hnames : NoDup (map Path.name (f :: files))).
  { apply (NoDup_fmap_2_strong Path.name); [|exact Hnd].
    intros p1 p2 H1 H2 E.
    destruct (Hdoc p1 H1) as (_ & Hp1 & Hn1 & _).
    destruct (Hdoc p2 H2) as (_ & Hp2 & Hn2 & _).
    rewrite (child_decompose folder p1 Hp1 Hn1), (child_decompose folder p2 Hp2 Hn2).
    by rewrite E. }
  split.
  - apply (sublist_NoDup _ _ Hnames). destruct Hpre as [k ->].
    by apply sublist_inserts_r.
  - intros n Hn.
    assert (Hin : n ∈ map Path.name (f :: files)).
    { destruct Hpre as [k ->]. apply elem_of_app. by left. }
    apply list_elem_of_fmap in Hin as (p & -> & Hp).
    destruct (Hdoc p Hp) as (Hc & Hpar & Hne & Hs).
    rewrite <- (child_decompose folder p Hpar Hne). by split.
Qed.

(** X12: after [rename_file] has given a name to one file, giving the
    same name to another file of the same directory is refused: the call
    returns [False], logs that the target exists and changes no file. *)
Theorem second_rename_is_refused (first second : path) (new_filename : string)
    (w w1 : world) :
  rename_file e first new_filename w = (w1, Ret true) ->
  Path.parent second = Path.parent first ->
  rename_file e second new_filename w1 =
    ({| fs := fs w1; log := log w1 ++ [(WARNING, TargetExists new_filename)] |},
     Ret false).
Proof.
  intros H Hpar.
  apply rename_file_true_dst in H as (Hsrc & _ & Hdst).
  unfold rename_file, bind, read. fold (destination second new_filename).
  assert (Hd : destination second new_filename = destination first new_filename)
    by (unfold destination; by rewrite Hpar).
  rewrite Hd, (exists_true w1 (destination first new_filename)); [reflexivity|].
  unfold holds_entry in *. rewrite Hdst. exact Hsrc.
Qed.

End BatchFacts.

(** ** The numbers [process_all_files] returns *)

Section CountFacts.

Context (e : environment).

Lemma validate_folder_quiet (folder : path) w wv rv :
  validate_folder folder w = (wv, rv) ->
  exists evs0, log wv = log w ++ evs0 /\ Log.quiet evs0.
Proof.
  rewrite validate_folder_eq. cbn zeta.
  destruct (fs w !! folder) as [[c|b|y]|]; try destruct (Os.ignore_error y);
    intros [= <- _];
    first [ by exists [] ; rewrite app_nil_r | by eexists [_] ].
Qed.

Lemma get_pdf_files_quiet (folder : path) w w0 rg :
  get_pdf_files folder w = (w0, rg) ->
  exists evs0, log w0 = log w ++ evs0 /\ Log.quiet evs0.
Proof.
  unfold get_pdf_files, try_except, bind, read, logger, ret.
  destruct (pdf_listing folder w) as [l|y].
  - intros [= <- _]. by eexists [_].
  - destruct y; cbn; intros [= <- _];
      first [ by exists [] ; rewrite app_nil_r | by eexists [_] ].
Qed.

(** X17: in the pair [process_all_files] returns, the first number is
    the number of renames the run has logged; it is at most the second;
    the run has started on no more files than the second; and after an
    interrupt the first is strictly below the second. *)
Theorem process_all_files_counts (folder : path) (w w' : world)
    (successful total : nat) (evs : list (level * message)) :
  process_all_files e folder w = (w', Ret (successful, total)) ->
  log w' = log w ++ evs ->
  successful = length (Log.renamed_names evs)
  /\ successful <= total
  /\ length (Log.processing_names evs) <= total
  /\ (Log.interrupted evs = true -> successful < total).
Proof.
  intros H Hl. rewrite process_all_files_eq in H.
  assert (Hnone : forall (evs0 : list (level * message)),
            Log.quiet evs0 -> log w' = log w ++ evs0 ->
            successful = 0 -> 
            successful = length (Log.renamed_names evs)
            /\ successful <= total
            /\ length (Log.processing_names evs) <= total
            /\ (Log.interrupted evs = true -> successful < total)).
  { intros evs0 (P0 & R0 & I0) Hl0 ->. rewrite Hl0 in Hl.
    apply app_inv_head in Hl. subst evs0.
    rewrite P0, R0, I0. cbn. repeat split; try lia; try discriminate. }
  destruct (validate_folder folder w) as [wv rv] eqn:Hv.
  destruct (validate_folder_quiet _ _ _ _ Hv) as (evsv & Hlv & Qv).
  destruct rv as [[|]|x]; [| |discriminate H].
  2: { injection H as <- <- <-. by apply (Hnone evsv). }
  destruct (get_pdf_files folder wv) as [w0 rg] eqn:Hg.
  destruct (get_pdf_files_quiet _ _ _ _ Hg) as (evsg & Hlg & Qg).
  destruct rg as [files|x]; [|discriminate H].
  destruct Qv as (Pv & Rv & Iv). destruct Qg as (Pg & Rg & Ig).
  destruct files as [|f files].
  { injection H as <- <- <-.
    apply (Hnone (evsv ++ evsg ++ [(WARNING, NoPdfFilesFound)])); [| |reflexivity].
    - unfold Log.quiet.
      rewrite !processing_names_app, !renamed_names_app, !interrupted_app.
      rewrite Pv, Pg, Rv, Rg, Iv, Ig. by cbn.
    - cbn [log]. rewrite Hlg, Hlv, <- !app_assoc. reflexivity. }
  destruct (process_loop_spec e (f :: files) 0 w0)
    as (w2 & c2 & evs2 & Hrun2 & Hl2 & Hc & Hsub & _ & Hint).
  pose proof (process_loop_processing_prefix e _ _ _ _ _ _ Hrun2 Hl2) as Hpre.
  rewrite Hrun2 in H. injection H as <- <- <-.
  rewrite Hl2, Hlg, Hlv, <- !app_assoc in Hl. apply app_inv_head in Hl. subst evs.
  rewrite !processing_names_app, !renamed_names_app, !interrupted_app.
  rewrite Pv, Pg, Rv, Rg, Iv, Ig. cbn [app orb].
  apply sublist_length in Hsub. apply prefix_length in Hpre.
  rewrite length_map in Hsub, Hpre.
  cbn [length] in *.
  repeat split; try lia.
Qed.

End CountFacts.

(** ** The properties on the sample run *)

Section MoreWitnesses.

Import Sample.

(** The keys of a concrete file system, one case each. *)
Ltac each_entry H :=
  apply elem_of_map_to_list in H;
  match type of H with
  | _ ∈ map_to_list ?m =>
      let l := eval vm_compute in (map_to_list m) in
      change (map_to_list m) with l in H
  end;
  repeat (apply elem_of_cons in H as [H|H];
          [let E := fresh in
           injection H as -> E; try discriminate E;
           try (injection E as ->); try subst|]);
  [..|by apply elem_of_nil in H].

Ltac no_slash :=
  let H := fresh in
  intros H; vm_compute in H; intuition discriminate.

Lemma plain_names_w0 : plain_names w0.
Proof. intros p [v Hv]. each_entry Hv; no_slash. Qed.

Lemma rename_file_moves_entry_witness :
  let r := rename_file env (folder ++ ["a.pdf"]) "x.pdf" w0 in
  component "x.pdf"
  /\ r.2 = Ret true
  /\ fs r.1 !! (folder ++ ["x.pdf"]) = fs w0 !! (folder ++ ["a.pdf"])
  /\ fs r.1 !! (folder ++ ["a.pdf"]) = None
  /\ fs r.1 !! (folder ++ ["c.pdf"]) = fs w0 !! (folder ++ ["c.pdf"]).
Proof.
  intros r.
  assert (Hn : component "x.pdf")
    by (split_and!; [discriminate.. | no_slash]).
  assert (H : rename_file env (folder ++ ["a.pdf"]) "x.pdf" w0 = (r.1, Ret true))
    by (vm_compute; reflexivity).
  split; [exact Hn|]. split; [vm_compute; reflexivity|].
  destruct (rename_file_moves_entry env _ _ _ _ Hn H)
    as (_ & _ & Hdst & Hsrc & Hframe).
  split; [exact Hdst|]. split; [exact Hsrc|]. apply Hframe.
  - intros [k Hk]. discriminate Hk.
  - intros [k Hk]. vm_compute in Hk. discriminate Hk.
Defined.


Lemma second_rename_is_refused_witness :
  let w1 := (rename_file env (folder ++ ["a.pdf"]) "x.pdf" w0).1 in
  rename_file env (folder ++ ["c.pdf"]) "x.pdf" w1 =
    ({| fs := fs w1; log := log w1 ++ [(WARNING, TargetExists "x.pdf")] |},
     Ret false).
Proof.
  intros w1.
  apply (second_rename_is_refused env (folder ++ ["a.pdf"])
           (folder ++ ["c.pdf"]) "x.pdf" w0 w1).
  - vm_compute; reflexivity.
  - reflexivity.
Defined.

Lemma validate_folder_accepts_directories_witness :
  validate_folder folder w0 = (w0, Ret true)
  /\ exists listable, fs w0 !! folder = Some (Dir listable).
Proof.
  assert (H : validate_folder folder w0 = (w0, Ret true))
    by (vm_compute; reflexivity).
  split; [exact H|].
  destruct (validate_folder_accepts_directories folder w0 w0 (Ret true) H)
    as (_ & Hiff & _).
  exact (proj1 Hiff eq_refl).
Defined.

Lemma extract_invoice_data_outcomes_witness :
  let r := extract_invoice_data env (folder ++ ["b.PDF"]) w0 in
  r.2 = Ret None /\ fs r.1 = fs w0
  /\ exists evs m, log r.1 = log w0 ++ evs ++ [(ERROR, m)].
Proof.
  intros r.
  assert (H : extract_invoice_data env (folder ++ ["b.PDF"]) w0 = (r.1, Ret None))
    by (vm_compute; reflexivity).
  split; [vm_compute; reflexivity|].
  destruct (extract_invoice_data_outcomes env _ _ _ _ H) as (Hfs & _ & _ & Hlog).
  split; [exact Hfs | exact (Hlog eq_refl)].
Defined.


(** The interrupt during the rename of [a.pdf]: the call raises, and the
    file is under its new name. *)
Example process_file_interrupted_rename :
  let r := process_file env_interrupted_rename (folder ++ ["a.pdf"]) w0 in
  r.2 = Raise KeyboardInterrupt
  /\ fs r.1 !! (folder ++ ["a.pdf"]) = None
  /\ fs r.1 !! (folder ++ ["Acme_Corp_subscription_20240305.pdf"])
     = Some (File "A").
Proof. vm_compute. repeat split; reflexivity. Qed.

Lemma process_file_success_witness :
  let r := process_file env (folder ++ ["a.pdf"]) w0 in
  r.2 = Ret true
  /\ exists content response invoice,
       fs w0 !! (folder ++ ["a.pdf"]) = Some (File content) /\
       generate_content env (folder ++ ["a.pdf"]) content = Ret response /\
       parse_invoice env response = Ret invoice /\
       let new_path :=
         destination (folder ++ ["a.pdf"])
           (new_name env invoice (folder ++ ["a.pdf"])) in
       holds_entry w0 new_path = false /\
       fs r.1 !! new_path = Some (File content) /\
       (forall q, ~ (folder ++ ["a.pdf"]) `prefix_of` q ->
                  ~ new_path `prefix_of` q -> fs r.1 !! q = fs w0 !! q).
Proof.
  intros r.
  assert (H : process_file env (folder ++ ["a.pdf"]) w0 = (r.1, Ret true))
    by (vm_compute; reflexivity).
  split; [vm_compute; reflexivity|].
  exact (process_file_success env _ _ _ H).
Defined.

Lemma get_pdf_files_lists_documents_witness :
  let r := get_pdf_files folder w0 in
  r.2 = Ret [folder ++ ["c.pdf"]; folder ++ ["a.pdf"]; folder ++ ["b.PDF"]]
  /\ fs r.1 = fs w0
  /\ NoDup [folder ++ ["c.pdf"]; folder ++ ["a.pdf"]; folder ++ ["b.PDF"]].
Proof.
  intros r.
  assert (H : get_pdf_files folder w0 =
              (r.1, Ret [folder ++ ["c.pdf"]; folder ++ ["a.pdf"];
                         folder ++ ["b.PDF"]]))
    by (vm_compute; reflexivity).
  split; [vm_compute; reflexivity|].
  destruct (get_pdf_files_lists_documents _ _ _ _ H) as (Hfs & Hnd & _).
  split; assumption.
Defined.

Lemma get_pdf_files_errors_witness :
  get_pdf_files ["/"; "missing"] w0 = (w0, Raise FileNotFoundError)
  /\ pdf_listing ["/"; "missing"] w0 = Raise FileNotFoundError.
Proof.
  assert (H : get_pdf_files ["/"; "missing"] w0 = (w0, Raise FileNotFoundError))
    by (vm_compute; reflexivity).
  split; [exact H|].
  exact (proj2 (proj2 (get_pdf_files_errors _ _ _ _ H))).
Defined.

Lemma unreadable_entry_hides_documents_witness :
  fs w_unreadable !! (folder ++ ["a.pdf"]) = Some (File "A")
  /\ get_pdf_files folder w_unreadable =
       ({| fs := fs w_unreadable;
           log := log w_unreadable ++ [(ERROR, PermissionDenied folder)] |},
        Ret []).
Proof.
  split; [vm_compute; reflexivity|].
  apply (unreadable_entry_hides_documents folder (folder ++ ["x.pdf"])).
  - vm_compute; reflexivity.
  - reflexivity.
  - discriminate.
  - vm_compute; reflexivity.
  - intros q x _ Hq. each_entry Hq. by left.
Defined.

Lemma new_name_is_one_component_witness :
  destination (folder ++ ["a.pdf"]) "Acme_Corp_subscription_20240305.pdf"
  = folder ++ ["Acme_Corp_subscription_20240305.pdf"].
Proof.
  assert (Hplain : ~ Str.occurs "/" (Path.name (folder ++ ["a.pdf"])))
    by no_slash.
  destruct (new_name_is_one_component env acme (folder ++ ["a.pdf"]) w0 Hplain)
    as (_ & _ & _ & Hd).
  exact Hd.
Defined.

Lemma process_file_stays_in_directory_witness :
  let r := process_file env (folder ++ ["a.pdf"]) w0 in
  fs r.1 !! ["/"; "locked"] = fs w0 !! ["/"; "locked"].
Proof.
  intros r.
  assert (H : process_file env (folder ++ ["a.pdf"]) w0 = (r.1, r.2))
    by (vm_compute; reflexivity).
  assert (Hplain : ~ Str.occurs "/" (Path.name (folder ++ ["a.pdf"])))
    by no_slash.
  apply (proj2 (process_file_stays_in_directory env _ _ _ _ H Hplain)).
  intros [k Hk]. vm_compute in Hk. discriminate Hk.
Defined.

Lemma process_all_files_stays_in_folder_witness :
  let r := process_all_files env folder w0 in
  r.2 = Ret (2, 3) /\ fs r.1 !! ["/"; "locked"] = fs w0 !! ["/"; "locked"].
Proof.
  intros r. split; [vm_compute; reflexivity|].
  apply (process_all_files_stays_in_folder env folder w0 r.1 r.2).
  - exact plain_names_w0.
  - vm_compute; reflexivity.
  - intros [k Hk]. discriminate Hk.
Defined.

Lemma process_all_files_processes_documents_once_witness :
  let r := process_all_files env folder w0 in
  Log.processing_names (log r.1) = ["c.pdf"; "a.pdf"; "b.PDF"]
  /\ NoDup (Log.processing_names (log r.1)).
Proof.
  intros r. split; [vm_compute; reflexivity|].
  apply (process_all_files_processes_documents_once env folder w0 r.1 r.2 (log r.1)).
  - vm_compute; reflexivity.
  - reflexivity.
Defined.

Lemma main_returns_status_witness :
  (main env folder w0).2 = Ret 1 /\ (main env_ok folder w0).2 = Ret 0.
Proof.
  destruct (main_returns_status env folder w0) as (w1 & c1 & H1 & _).
  destruct (main_returns_status env_ok folder w0) as (w2 & c2 & H2 & _).
  rewrite H1, H2. cbn [snd].
  assert (E1 : (main env folder w0).2 = Ret 1) by (vm_compute; reflexivity).
  assert (E2 : (main env_ok folder w0).2 = Ret 0) by (vm_compute; reflexivity).
  rewrite H1 in E1. rewrite H2 in E2. split; assumption.
Defined.

Lemma process_all_files_counts_witness :
  let r := process_all_files env folder w0 in
  r.2 = Ret (2, 3) /\ 2 = length (Log.renamed_names (log r.1)).
Proof.
  intros r. split; [vm_compute; reflexivity|].
  destruct (process_all_files_counts env folder w0 r.1 2 3 (log r.1))
    as (H & _); [vm_compute; reflexivity | reflexivity | exact H].
Defined.

End MoreWitnesses.
